(** * QRIS frame merger: area selection, compositing and print layout

  A shallow embedding of the geometric core of the application:

  - [AreaSelector.tsx]: the pointer-driven rectangle editor
    ([getCornerAtPosition], [handleMouseDown], [handleMouseMove],
    [handleMouseUp]) and the settings dialog's rectangle export/import
    ([handleExportConfig], [handleImportConfig]);
  - the image merger component ([mergeImages]);
  - [PrintLayout.tsx]: pagination ([pages]), grid shape ([getGridClass]),
    orientation ([getOrientation]) and the two PDF exports
    ([downloadPageAsPDF], [downloadAllAsPDF]).

  Numbers.  A JavaScript [number] is modelled as an exact rational [Q];
  equalities between computed numbers are therefore stated with [==]
  ([Qeq]).  Counts that the code only ever uses as integers
  ([imagesPerPage], loop indices, [cols], [rows]) are modelled as [Z].
  Division is [Qdiv]; it agrees with the source wherever the divisor is
  not zero, and statements that depend on a quotient carry the
  hypothesis that the divisor is positive.  The rational model leaves
  rounding out; where rounding decides a statement about the image
  merger, the merger is also transcribed over IEEE 754 binary64 numbers
  (module [Binary64]), which is the arithmetic the code runs on. *)

From Stdlib Require Import QArith Qminmax Qabs Qround ZArith List Bool String Lia Lqa.
From Stdlib Require Import PrimFloat.
Import ListNotations.

Local Open Scope string_scope.
Local Open Scope list_scope.
Local Open Scope Q_scope.
Set Warnings "-register-all".

(** ** JavaScript arithmetic used by the components *)

Module Math.

Definition max (a b : Q) : Q := Qmax a b.
Definition min (a b : Q) : Q := Qmin a b.
Definition abs (a : Q) : Q := Qabs a.
Definition ceil (a : Q) : Z := Qceiling a.
Definition floor (a : Q) : Z := Qfloor a.

End Math.

(** [a > b], [a < b], [a >= b], [a <= b] as the tests the code branches on. *)
Definition gtb (a b : Q) : bool :=
  match a ?= b with Gt => true | _ => false end.
Definition ltb (a b : Q) : bool :=
  match a ?= b with Lt => true | _ => false end.
Definition geb (a b : Q) : bool := negb (ltb a b).
Definition leb (a b : Q) : bool := negb (gtb a b).

(** ** Data model *)

(** [interface AreaConfig { x; y; width; height }].  The same object shape
  is used for the percentage rectangle and for [targetArea], the
  rectangle in frame pixels. *)
Record AreaConfig : Type := mkArea {
  x : Q;
  y : Q;
  width : Q;
  height : Q
}.

(** Field-wise numeric equality of two rectangles. *)
Definition area_eq (a b : AreaConfig) : Prop :=
  x a == x b /\ y a == y b /\ width a == width b /\ height a == height b.

(** The Rectangle invariants of the data model. *)
Definition in_bounds (a : AreaConfig) : Prop :=
  0 <= x a /\ 0 <= y a /\ x a + width a <= 100 /\ y a + height a <= 100.

Definition rect_invariants (a : AreaConfig) : Prop :=
  in_bounds a /\ 0 <= width a /\ 0 <= height a.

(** A decoded image: what the code reads from an [HTMLImageElement]. *)
Record Image : Type := mkImage {
  img_width : Q;
  img_height : Q
}.

(** ** The image merger: [mergeImages] *)

Module ImageMerger.

(** The four numbers handed to [ctx.drawImage(qrisImg, ...)]. *)
Record Draw : Type := mkDraw {
  drawX : Q;
  drawY : Q;
  drawWidth : Q;
  drawHeight : Q
}.

(** "Convert percentage-based area config to actual pixel values". *)
Definition targetArea (areaConfig : AreaConfig) (frameImg : Image) : AreaConfig :=
  {| x := (x areaConfig / 100) * img_width frameImg;
     y := (y areaConfig / 100) * img_height frameImg;
     width := (width areaConfig / 100) * img_width frameImg;
     height := (height areaConfig / 100) * img_height frameImg |}.

(** The body of the loop between the two [drawImage] calls, in exact
    arithmetic; [Binary64.fit] is the same computation with every
    operation rounded. *)
Definition fit (targetArea : AreaConfig) (qrisImg : Image) : Draw :=
  let qrisAspect := img_width qrisImg / img_height qrisImg in
  let targetAspect := width targetArea / height targetArea in
  if gtb qrisAspect targetAspect then
    let drawWidth := width targetArea in
    let drawHeight := drawWidth / qrisAspect in
    let drawX := x targetArea in
    let drawY := y targetArea + (height targetArea - drawHeight) / 2 in
    mkDraw drawX drawY drawWidth drawHeight
  else
    let drawHeight := height targetArea in
    let drawWidth := drawHeight * qrisAspect in
    let drawX := x targetArea + (width targetArea - drawWidth) / 2 in
    let drawY := y targetArea in
    mkDraw drawX drawY drawWidth drawHeight.

(** [interface QRISImage { id; file; preview }]; the [File] handle is
    never read by the merger and is left out. *)
Record QRISImage : Type := mkQRIS {
  id : string;
  preview : string
}.

(** What one iteration leaves on the canvas and pushes as a data URL:
    the canvas resized to the frame, the frame drawn at the origin and
    the source drawn at [placed]. *)
Record Merged : Type := mkMerged {
  canvas_width : Q;
  canvas_height : Q;
  frame_src : string;
  qris_src : string;
  placed : Draw
}.

(** The surroundings of one pass: whether [canvasRef.current] and its 2d
    context exist, and which sources [loadImage] resolves ([None] is a
    rejected promise). *)
Record Env : Type := mkEnv {
  canvasRef : bool;
  getContext : bool;
  loadImage : string -> option Image
}.

(** [for (const qrisImage of qrisImages) { try { ... } catch { ... } }] *)
Fixpoint mergeLoop (env : Env) (frameImage : string) (frameImg : Image)
    (targetArea : AreaConfig) (qrisImages : list QRISImage)
    (mergedResults : list Merged) : list Merged :=
  match qrisImages with
  | [] => mergedResults
  | qrisImage :: rest =>
      match loadImage env (preview qrisImage) with
      | Some qrisImg =>
          let mergedDataUrl :=
            {| canvas_width := img_width frameImg;
               canvas_height := img_height frameImg;
               frame_src := frameImage;
               qris_src := preview qrisImage;
               placed := fit targetArea qrisImg |} in
          mergeLoop env frameImage frameImg targetArea rest
                    (mergedResults ++ [mergedDataUrl])
      | None =>
          (* catch: console.error('Error merging image:', error) *)
          mergeLoop env frameImage frameImg targetArea rest mergedResults
      end
  end.

(** [mergeImages]: [Some l] when [onMergedImagesReady(l)] is called,
    [None] when the function returns early or the frame's promise
    rejects (that [await] is outside the [try]). *)
Definition mergeImages (env : Env) (frameImage : string)
    (qrisImages : list QRISImage) (areaConfig : AreaConfig)
    : option (list Merged) :=
  if negb (canvasRef env) then None
  else if negb (getContext env) then None
  else
    match loadImage env frameImage with
    | None => None
    | Some frameImg =>
        Some (mergeLoop env frameImage frameImg
                        (targetArea areaConfig frameImg) qrisImages [])
    end.

End ImageMerger.

(** ** The image merger in binary64 arithmetic *)

Module Binary64.

Local Open Scope float_scope.

(** [AreaConfig] and [targetArea], with binary64 fields. *)
Record AreaConfig : Type := mkArea {
  x : float;
  y : float;
  width : float;
  height : float
}.

Record Image : Type := mkImage {
  img_width : float;
  img_height : float
}.

Record Draw : Type := mkDraw {
  drawX : float;
  drawY : float;
  drawWidth : float;
  drawHeight : float
}.

(** "Convert percentage-based area config to actual pixel values". *)
Definition targetArea (areaConfig : AreaConfig) (frameImg : Image) : AreaConfig :=
  {| x := (x areaConfig / 100) * img_width frameImg;
     y := (y areaConfig / 100) * img_height frameImg;
     width := (width areaConfig / 100) * img_width frameImg;
     height := (height areaConfig / 100) * img_height frameImg |}.

(** The body of the loop between the two [drawImage] calls;
    [qrisAspect > targetAspect] is [targetAspect <? qrisAspect]. *)
Definition fit (targetArea : AreaConfig) (qrisImg : Image) : Draw :=
  let qrisAspect := img_width qrisImg / img_height qrisImg in
  let targetAspect := width targetArea / height targetArea in
  if targetAspect <? qrisAspect then
    let drawWidth := width targetArea in
    let drawHeight := drawWidth / qrisAspect in
    let drawX := x targetArea in
    let drawY := y targetArea + (height targetArea - drawHeight) / 2 in
    mkDraw drawX drawY drawWidth drawHeight
  else
    let drawHeight := height targetArea in
    let drawWidth := drawHeight * qrisAspect in
    let drawX := x targetArea + (width targetArea - drawWidth) / 2 in
    let drawY := y targetArea in
    mkDraw drawX drawY drawWidth drawHeight.

Record Merged : Type := mkMerged {
  canvas_width : float;
  canvas_height : float;
  frame_src : string;
  qris_src : string;
  placed : Draw
}.

Record Env : Type := mkEnv {
  canvasRef : bool;
  getContext : bool;
  loadImage : string -> option Image
}.

(** [for (const qrisImage of qrisImages) { try { ... } catch { ... } }] *)
Fixpoint mergeLoop (env : Env) (frameImage : string) (frameImg : Image)
    (targetArea : AreaConfig) (qrisImages : list ImageMerger.QRISImage)
    (mergedResults : list Merged) : list Merged :=
  match qrisImages with
  | [] => mergedResults
  | qrisImage :: rest =>
      match loadImage env (ImageMerger.preview qrisImage) with
      | Some qrisImg =>
          let mergedDataUrl :=
            {| canvas_width := img_width frameImg;
               canvas_height := img_height frameImg;
               frame_src := frameImage;
               qris_src := ImageMerger.preview qrisImage;
               placed := fit targetArea qrisImg |} in
          mergeLoop env frameImage frameImg targetArea rest
                    (mergedResults ++ [mergedDataUrl])
      | None =>
          (* catch: console.error('Error merging image:', error) *)
          mergeLoop env frameImage frameImg targetArea rest mergedResults
      end
  end.

(** [mergeImages]: [Some l] when [onMergedImagesReady(l)] is called,
    [None] when the function returns early or the frame's promise
    rejects. *)
Definition mergeImages (env : Env) (frameImage : string)
    (qrisImages : list ImageMerger.QRISImage) (areaConfig : AreaConfig)
    : option (list Merged) :=
  if negb (canvasRef env) then None
  else if negb (getContext env) then None
  else
    match loadImage env frameImage with
    | None => None
    | Some frameImg =>
        Some (mergeLoop env frameImage frameImg
                        (targetArea areaConfig frameImg) qrisImages [])
    end.

End Binary64.

(** ** The rectangle editor: [AreaSelector] *)

Module AreaSelector.

Inductive DragMode : Type :=
| none | draw | move | resize_tl | resize_tr | resize_bl | resize_br.

Definition DragMode_eqb (a b : DragMode) : bool :=
  match a, b with
  | none, none | draw, draw | move, move
  | resize_tl, resize_tl | resize_tr, resize_tr
  | resize_bl, resize_bl | resize_br, resize_br => true
  | _, _ => false
  end.

(** [dragMode.startsWith('resize-')] *)
Definition startsWith_resize (m : DragMode) : bool :=
  match m with
  | resize_tl | resize_tr | resize_bl | resize_br => true
  | _ => false
  end.

(** A position [{ x, y }] in percent of the container. *)
Record Pos : Type := mkPos { pos_x : Q; pos_y : Q }.

Record MouseEvent : Type := mkEvent { clientX : Q; clientY : Q }.

(** [containerRef.current.getBoundingClientRect()] *)
Record DOMRect : Type := mkDOMRect {
  rect_left : Q;
  rect_top : Q;
  rect_width : Q;
  rect_height : Q
}.

(** The component's state hooks together with what it gets from its
    parent: the [areaConfig] prop and [onAreaChange], which the settings
    dialog implements as [setAreaConfig(area)].  [areaChanged] records the
    calls of [onAreaChange], oldest first. *)
Record Component : Type := mkComponent {
  containerRef : option DOMRect;
  areaConfig : option AreaConfig;
  areaChanged : list (option AreaConfig);
  dragMode : DragMode;
  dragStart : option Pos;
  tempArea : option AreaConfig;
  originalArea : option AreaConfig
}.

Definition onAreaChange (area : option AreaConfig) (c : Component) : Component :=
  {| containerRef := containerRef c;
     areaConfig := area;
     areaChanged := areaChanged c ++ [area];
     dragMode := dragMode c;
     dragStart := dragStart c;
     tempArea := tempArea c;
     originalArea := originalArea c |}.

Definition setDragMode (m : DragMode) (c : Component) : Component :=
  {| containerRef := containerRef c;
     areaConfig := areaConfig c;
     areaChanged := areaChanged c;
     dragMode := m;
     dragStart := dragStart c;
     tempArea := tempArea c;
     originalArea := originalArea c |}.

Definition setDragStart (p : option Pos) (c : Component) : Component :=
  {| containerRef := containerRef c;
     areaConfig := areaConfig c;
     areaChanged := areaChanged c;
     dragMode := dragMode c;
     dragStart := p;
     tempArea := tempArea c;
     originalArea := originalArea c |}.

Definition setTempArea (a : option AreaConfig) (c : Component) : Component :=
  {| containerRef := containerRef c;
     areaConfig := areaConfig c;
     areaChanged := areaChanged c;
     dragMode := dragMode c;
     dragStart := dragStart c;
     tempArea := a;
     originalArea := originalArea c |}.

Definition setOriginalArea (a : option AreaConfig) (c : Component) : Component :=
  {| containerRef := containerRef c;
     areaConfig := areaConfig c;
     areaChanged := areaChanged c;
     dragMode := dragMode c;
     dragStart := dragStart c;
     tempArea := tempArea c;
     originalArea := a |}.

(** The quotients are exact; they are the code's for a container of
    positive width and height.  (For a container of size 0 the code
    divides by zero and gets 100, 0 or NaN.) *)
Definition getRelativePosition (c : Component) (e : MouseEvent) : Pos :=
  match containerRef c with
  | None => mkPos 0 0
  | Some rect =>
      let x := ((clientX e - rect_left rect) / rect_width rect) * 100 in
      let y := ((clientY e - rect_top rect) / rect_height rect) * 100 in
      mkPos (Math.max 0 (Math.min 100 x)) (Math.max 0 (Math.min 100 y))
  end.

Definition getCornerAtPosition (pos : Pos) (area : AreaConfig) : DragMode :=
  let handleSize := 3 in
  let corners :=
    [ (resize_tl, x area, y area);
      (resize_tr, x area + width area, y area);
      (resize_bl, x area, y area + height area);
      (resize_br, x area + width area, y area + height area) ] in
  match
    find (fun '(_, cx, cy) =>
            ltb (Math.abs (pos_x pos - cx)) handleSize
            && ltb (Math.abs (pos_y pos - cy)) handleSize) corners
  with
  | Some (mode, _, _) => mode
  | None =>
      if geb (pos_x pos) (x area) && leb (pos_x pos) (x area + width area)
         && geb (pos_y pos) (y area) && leb (pos_y pos) (y area + height area)
      then move
      else draw
  end.

Definition handleMouseDown (e : MouseEvent) (c : Component) : Component :=
  let pos := getRelativePosition c e in
  match areaConfig c with
  | Some area =>
      let mode := getCornerAtPosition pos area in
      let c := setDragMode mode c in
      let c := setDragStart (Some pos) c in
      let c := setOriginalArea (Some area) c in
      if DragMode_eqb mode draw
      then setTempArea (Some (mkArea (pos_x pos) (pos_y pos) 0 0)) c
      else c
  | None =>
      let c := setDragMode draw c in
      let c := setDragStart (Some pos) c in
      setTempArea (Some (mkArea (pos_x pos) (pos_y pos) 0 0)) c
  end.

(** The [resize-*] branch of [handleMouseMove]. *)
Definition resize (mode : DragMode) (originalArea : AreaConfig)
    (dragStart pos : Pos) : AreaConfig :=
  let newX := x originalArea in
  let newY := y originalArea in
  let newW := width originalArea in
  let newH := height originalArea in
  let dx := pos_x pos - pos_x dragStart in
  let dy := pos_y pos - pos_y dragStart in
  let '(newX, newY, newW, newH) :=
    match mode with
    | resize_tl =>
        (x originalArea + dx, y originalArea + dy,
         width originalArea - dx, height originalArea - dy)
    | resize_tr =>
        (newX, y originalArea + dy,
         width originalArea + dx, height originalArea - dy)
    | resize_bl =>
        (x originalArea + dx, newY,
         width originalArea - dx, height originalArea + dy)
    | resize_br =>
        (newX, newY, width originalArea + dx, height originalArea + dy)
    | _ => (newX, newY, newW, newH)
    end in
  let newW := if ltb newW 2 then 2 else newW in
  let newH := if ltb newH 2 then 2 else newH in
  let newX := Math.max 0 (Math.min (100 - newW) newX) in
  let newY := Math.max 0 (Math.min (100 - newH) newY) in
  mkArea newX newY newW newH.

Definition handleMouseMove (e : MouseEvent) (c : Component) : Component :=
  match dragMode c, dragStart c with
  | none, _ | _, None => c
  | mode, Some dragStart =>
      let pos := getRelativePosition c e in
      match mode, originalArea c with
      | draw, _ =>
          let newArea :=
            {| x := Math.min (pos_x dragStart) (pos_x pos);
               y := Math.min (pos_y dragStart) (pos_y pos);
               width := Math.abs (pos_x pos - pos_x dragStart);
               height := Math.abs (pos_y pos - pos_y dragStart) |} in
          setTempArea (Some newArea) c
      | move, Some originalArea =>
          let dx := pos_x pos - pos_x dragStart in
          let dy := pos_y pos - pos_y dragStart in
          let newX := x originalArea + dx in
          let newY := y originalArea + dy in
          let newX := Math.max 0 (Math.min (100 - width originalArea) newX) in
          let newY := Math.max 0 (Math.min (100 - height originalArea) newY) in
          setTempArea
            (Some {| x := newX; y := newY;
                     width := width originalArea;
                     height := height originalArea |}) c
      | _, Some originalArea =>
          if startsWith_resize mode
          then setTempArea (Some (resize mode originalArea dragStart pos)) c
          else c
      | _, None => c
      end
  end.

Definition handleMouseUp (c : Component) : Component :=
  let c :=
    if negb (DragMode_eqb (dragMode c) none)
    then
      match tempArea c with
      | Some tempArea =>
          if gtb (width tempArea) 1 && gtb (height tempArea) 1
          then onAreaChange (Some tempArea) c
          else c
      | None => c
      end
    else c in
  let c := setDragMode none c in
  let c := setDragStart None c in
  let c := setTempArea None c in
  setOriginalArea None c.

(** One pointer gesture: press, any number of moves, release. *)
Definition gesture (down : MouseEvent) (moves : list MouseEvent)
    (c : Component) : Component :=
  handleMouseUp
    (fold_left (fun c e => handleMouseMove e c) moves (handleMouseDown down c)).

End AreaSelector.

(** ** The settings dialog: rectangle export and import *)

Module SettingsModal.

(** A parsed JSON document, the value [JSON.parse] returns. *)
Inductive JSON : Type :=
| JNull
| JBool (b : bool)
| JNumber (n : Q)
| JString (s : string)
| JArray (items : list JSON)
| JObject (fields : list (string * JSON)).

(** Own property [key] of a parsed object. *)
Fixpoint lookup (key : string) (fields : list (string * JSON)) : option JSON :=
  match fields with
  | [] => None
  | (k, v) :: rest => if String.eqb k key then Some v else lookup key rest
  end.

(** The result of evaluating [value.key]. *)
Inductive Property : Type :=
| TypeError
| undefined
| value (v : JSON).

(** [data.key]: reading a property of [null] throws; a parsed object has
    its own fields; booleans, numbers, strings and arrays have none of
    the keys read here. *)
Definition get (data : JSON) (key : string) : Property :=
  match data with
  | JNull => TypeError
  | JObject fields =>
      match lookup key fields with
      | Some v => value v
      | None => undefined
      end
  | _ => undefined
  end.

(** JavaScript truthiness, as [||] tests it. *)
Definition truthy (v : JSON) : bool :=
  match v with
  | JNull => false
  | JBool b => b
  | JNumber n => negb (Qeq_bool n 0)
  | JString s => negb (String.eqb s EmptyString)
  | JArray _ | JObject _ => true
  end.

(** [const config = data.areaConfig || data]; [None] when reading the
    property throws. *)
Definition areaConfig_or_data (data : JSON) : option JSON :=
  match get data "areaConfig" with
  | TypeError => None
  | undefined => Some data
  | value v => if truthy v then Some v else Some data
  end.

(** [typeof p === 'number'] *)
Definition typeof_number (p : Property) : bool :=
  match p with
  | value (JNumber _) => true
  | _ => false
  end.

(** The number read from a property that holds one. *)
Definition number (p : Property) : Q :=
  match p with
  | value (JNumber n) => n
  | _ => 0
  end.

(** The object handed to [setAreaConfig], read through the four fields of
    [AreaConfig]; the import only hands over objects whose four fields
    are numbers.  The dialog's state is modelled by these four numbers:
    further fields that an imported object carries (and that the code
    keeps on the stored object) are outside the model, so statements
    about what is written out again are made for objects that consist of
    the four fields. *)
Definition asAreaConfig (config : JSON) : AreaConfig :=
  {| x := number (get config "x");
     y := number (get config "y");
     width := number (get config "width");
     height := number (get config "height") |}.

(** The dialog's state hooks. *)
Record State : Type := mkState {
  frameImage : option string;
  areaConfig : option AreaConfig;
  saveSuccess : bool
}.

Definition setAreaConfig (a : option AreaConfig) (st : State) : State :=
  {| frameImage := frameImage st; areaConfig := a; saveSuccess := saveSuccess st |}.

Definition setSaveSuccess (b : bool) (st : State) : State :=
  {| frameImage := frameImage st; areaConfig := areaConfig st; saveSuccess := b |}.

(** [!frameImage] for a [string | null]. *)
Definition no_frame (f : option string) : bool :=
  match f with
  | None => true
  | Some src => String.eqb src EmptyString
  end.

(** The [AreaConfig] object as a JSON value. *)
Definition toJSON (a : AreaConfig) : JSON :=
  JObject [ ("x", JNumber (x a));
            ("y", JNumber (y a));
            ("width", JNumber (width a));
            ("height", JNumber (height a)) ].

(** [exportData = { areaConfig, exportedAt: new Date().toISOString() }] *)
Definition exportData (a : AreaConfig) (now : string) : JSON :=
  JObject [ ("areaConfig", toJSON a);
            ("exportedAt", JString now) ].

(** What [handleImportConfig]'s reader does besides setting state. *)
Inductive Alert : Type :=
| Format_file_tidak_valid
| Gagal_membaca_file.

Section Codec.

(** The platform's [JSON.stringify(_, null, 2)] and [JSON.parse]; [parse]
    is [None] where [JSON.parse] throws. *)
Variable Text : Type.
Variable stringify : JSON -> Text.
Variable parse : Text -> option JSON.

(** [handleExportConfig]: the text of the downloaded
    [qris-area-config.json], or [None] when the guard returns. *)
Definition handleExportConfig (now : string) (st : State) : option Text :=
  match areaConfig st with
  | None => None
  | Some a =>
      if no_frame (frameImage st) then None
      else Some (stringify (exportData a now))
  end.

(** [reader.onload] of [handleImportConfig], applied to the file's text. *)
Definition handleImportConfig (text : Text) (st : State) : State * option Alert :=
  match parse text with
  | None => (st, Some Gagal_membaca_file)
  | Some data =>
      match areaConfig_or_data data with
      | None => (st, Some Gagal_membaca_file)
      | Some config =>
          match get config "x" with
          | TypeError => (st, Some Gagal_membaca_file)
          | _ =>
              if typeof_number (get config "x")
                 && typeof_number (get config "y")
                 && typeof_number (get config "width")
                 && typeof_number (get config "height")
              then (setSaveSuccess false (setAreaConfig (Some (asAreaConfig config)) st),
                    None)
              else (st, Some Format_file_tidak_valid)
          end
      end
  end.

End Codec.

Arguments handleExportConfig {Text} stringify now st.
Arguments handleImportConfig {Text} parse text st.

(** *** Frame changes and saving *)

Definition setFrameImage (f : option string) (st : State) : State :=
  {| frameImage := f; areaConfig := areaConfig st; saveSuccess := saveSuccess st |}.

(** [reader.onload] of [handleFrameUpload], applied to the data URL read
    from the file: "Reset area when frame changes". *)
Definition handleFrameUpload (result : option string) (st : State) : State :=
  setSaveSuccess false (setAreaConfig None (setFrameImage result st)).

Definition handleRemoveFrame (st : State) : State :=
  setSaveSuccess false (setAreaConfig None (setFrameImage None st)).

(** [canSave], which disables the save button. *)
Definition canSave (st : State) : bool :=
  negb (no_frame (frameImage st))
  && match areaConfig st with
     | Some a => gtb (width a) 1 && gtb (height a) 1
     | None => false
     end.

Definition SETTINGS_KEY : string := "qris-merger-settings".

(** [localStorage]: the text stored under each key. *)
Definition Storage : Type := string -> option string.

Definition getItem (key : string) (ls : Storage) : option string := ls key.

Definition setItem (key text : string) (ls : Storage) : Storage :=
  fun k => if String.eqb k key then Some text else ls k.

(** [interface SavedSettings { frameImage; areaConfig }] *)
Record SavedSettings : Type := mkSaved {
  saved_frameImage : string;
  saved_areaConfig : AreaConfig
}.

(** The settings object as a JSON value. *)
Definition settingsJSON (settings : SavedSettings) : JSON :=
  JObject [ ("frameImage", JString (saved_frameImage settings));
            ("areaConfig", toJSON (saved_areaConfig settings)) ].

(** [handleSave]: the new dialog state, the new [localStorage] and the
    argument of [onSave] when it is called.  The timer that hides the
    success message after three seconds is not part of the model. *)
Definition handleSave (stringify : JSON -> string) (st : State) (ls : Storage)
    : State * Storage * option SavedSettings :=
  match frameImage st, areaConfig st with
  | Some f, Some a =>
      if no_frame (Some f) then (st, ls, None)
      else
        let settings := mkSaved f a in
        (setSaveSuccess true st,
         setItem SETTINGS_KEY (stringify (settingsJSON settings)) ls,
         Some settings)
  | _, _ => (st, ls, None)
  end.

End SettingsModal.

(** ** Print layout: pagination, grid and PDF export *)

Module PrintLayout.

(** [Array.prototype.slice(start, end)] on integer arguments. *)
Definition slice {A : Type} (arr : list A) (start end_ : Z) : list A :=
  let len := Z.of_nat (List.length arr) in
  let k := if (start <? 0)%Z then Z.max (len + start) 0 else Z.min start len in
  let final := if (end_ <? 0)%Z then Z.max (len + end_) 0 else Z.min end_ len in
  firstn (Z.to_nat (final - k)) (skipn (Z.to_nat k) arr).

(** [for (let i = 0; i < mergedImages.length; i += imagesPerPage)
      pages.push(mergedImages.slice(i, i + imagesPerPage))],
    from loop variable [i] on; [None] when [fuel] iterations do not reach
    the exit. *)
Fixpoint pages_from (fuel : nat) (mergedImages : list string)
    (imagesPerPage : Z) (i : Z) (pages : list (list string))
    : option (list (list string)) :=
  match fuel with
  | O => None
  | S fuel =>
      if (i <? Z.of_nat (List.length mergedImages))%Z
      then pages_from fuel mergedImages imagesPerPage (i + imagesPerPage)
                      (pages ++ [slice mergedImages i (i + imagesPerPage)])
      else Some pages
  end.

Definition pages (fuel : nat) (mergedImages : list string) (imagesPerPage : Z)
    : option (list (list string)) :=
  pages_from fuel mergedImages imagesPerPage 0 [].

Definition getGridClass (imagesPerPage : Z) : string :=
  match imagesPerPage with
  | 1%Z => "grid-cols-1"
  | 2%Z => "grid-cols-2"
  | 4%Z => "grid-cols-2"
  | 6%Z => "grid-cols-3"
  | _ => "grid-cols-2"
  end.

Inductive Orientation : Type := portrait | landscape.

Definition getOrientation (imagesPerPage : Z) : Orientation :=
  if (imagesPerPage >=? 2)%Z then landscape else portrait.

Definition is_landscape (o : Orientation) : bool :=
  match o with landscape => true | portrait => false end.

(** The constants each export computes before its loop. *)
Record Layout : Type := mkLayout {
  orientation : Orientation;
  pageWidth : Q;
  pageHeight : Q;
  padding : Q;
  cols : Z;
  rows : Z;
  availableWidth : Q;
  availableHeight : Q;
  cellWidth : Q;
  cellHeight : Q
}.

(** [pdf.addImage(src, 'PNG', x, y, drawWidth, drawHeight)] *)
Record Placement : Type := mkPlacement {
  src : string;
  at_x : Q;
  at_y : Q;
  drawWidth : Q;
  drawHeight : Q
}.

Inductive FileName : Type :=
| qris_merged_page (n : Z)
| qris_merged_all.

(** The calls made on the [jsPDF] document, in order. *)
Inductive PdfCall : Type :=
| new_jsPDF (o : Orientation)
| addPage (o : Orientation)
| addImage (p : Placement)
| save (name : FileName).

Section PdfExport.

Variable loadImage : string -> option Image.
Variable imagesPerPage : Z.

(** *** [downloadPageAsPDF] *)

Definition downloadPageAsPDF_layout : Layout :=
  let orientation := getOrientation imagesPerPage in
  let pageWidth := if is_landscape orientation then 297 else 210 in
  let pageHeight := if is_landscape orientation then 210 else 297 in
  let padding := 3 in
  let cols :=
    if (imagesPerPage =? 1)%Z then 1%Z
    else if (imagesPerPage =? 2)%Z then 2%Z
    else if (imagesPerPage =? 4)%Z then 2%Z
    else 3%Z in
  let rows := Math.ceil (inject_Z imagesPerPage / inject_Z cols) in
  let availableWidth := pageWidth - (padding * 2) in
  let availableHeight := pageHeight - (padding * 2) in
  let cellWidth := availableWidth / inject_Z cols in
  let cellHeight := availableHeight / inject_Z rows in
  mkLayout orientation pageWidth pageHeight padding cols rows
           availableWidth availableHeight cellWidth cellHeight.

(** The loop over [pageImages], from index [i] on; [None] when an image
    fails to load and control passes to the [catch]. *)
Fixpoint downloadPageAsPDF_loop (L : Layout) (pageImages : list string) (i : Z)
    : option (list PdfCall) :=
  match pageImages with
  | [] => Some []
  | pageImage :: rest =>
      match loadImage pageImage with
      | None => None
      | Some img =>
          let col := Z.rem i (cols L) in
          let row := Math.floor (inject_Z i / inject_Z (cols L)) in
          let imgAspect := img_width img / img_height img in
          let cellAspect := cellWidth L / cellHeight L in
          let '(drawWidth, drawHeight) :=
            if gtb imgAspect cellAspect
            then
              let drawWidth := cellWidth L * (99 # 100) in
              (drawWidth, drawWidth / imgAspect)
            else
              let drawHeight := cellHeight L * (99 # 100) in
              (drawHeight * imgAspect, drawHeight) in
          let x := padding L + inject_Z col * cellWidth L
                   + (cellWidth L - drawWidth) / 2 in
          let y := padding L + inject_Z row * cellHeight L
                   + (cellHeight L - drawHeight) / 2 in
          match downloadPageAsPDF_loop L rest (i + 1) with
          | None => None
          | Some calls =>
              Some (addImage (mkPlacement pageImage x y drawWidth drawHeight)
                    :: calls)
          end
      end
  end.

(** [Some calls]: the document was built and saved; [None]: the [catch]
    ran (alert, nothing saved). *)
Definition downloadPageAsPDF (pageImages : list string) (pageIndex : Z)
    : option (list PdfCall) :=
  let L := downloadPageAsPDF_layout in
  match downloadPageAsPDF_loop L pageImages 0 with
  | None => None
  | Some calls =>
      Some (new_jsPDF (orientation L) :: calls
            ++ [save (qris_merged_page (pageIndex + 1))])
  end.

(** *** [downloadAllAsPDF] *)

Definition downloadAllAsPDF_layout : Layout :=
  let orientation := getOrientation imagesPerPage in
  let pageWidth := if is_landscape orientation then 297 else 210 in
  let pageHeight := if is_landscape orientation then 210 else 297 in
  let padding := 3 in
  let cols :=
    if (imagesPerPage =? 1)%Z then 1%Z
    else if (imagesPerPage =? 2)%Z then 2%Z
    else if (imagesPerPage =? 4)%Z then 2%Z
    else 3%Z in
  let rows := Math.ceil (inject_Z imagesPerPage / inject_Z cols) in
  let availableWidth := pageWidth - (padding * 2) in
  let availableHeight := pageHeight - (padding * 2) in
  let cellWidth := availableWidth / inject_Z cols in
  let cellHeight := availableHeight / inject_Z rows in
  mkLayout orientation pageWidth pageHeight padding cols rows
           availableWidth availableHeight cellWidth cellHeight.

(** The inner loop over one page's images. *)
Fixpoint downloadAllAsPDF_images (L : Layout) (pageImages : list string) (i : Z)
    : option (list PdfCall) :=
  match pageImages with
  | [] => Some []
  | pageImage :: rest =>
      match loadImage pageImage with
      | None => None
      | Some img =>
          let col := Z.rem i (cols L) in
          let row := Math.floor (inject_Z i / inject_Z (cols L)) in
          let imgAspect := img_width img / img_height img in
          let cellAspect := cellWidth L / cellHeight L in
          let '(drawWidth, drawHeight) :=
            if gtb imgAspect cellAspect
            then
              let drawWidth := cellWidth L * (99 # 100) in
              (drawWidth, drawWidth / imgAspect)
            else
              let drawHeight := cellHeight L * (99 # 100) in
              (drawHeight * imgAspect, drawHeight) in
          let x := padding L + inject_Z col * cellWidth L
                   + (cellWidth L - drawWidth) / 2 in
          let y := padding L + inject_Z row * cellHeight L
                   + (cellHeight L - drawHeight) / 2 in
          match downloadAllAsPDF_images L rest (i + 1) with
          | None => None
          | Some calls =>
              Some (addImage (mkPlacement pageImage x y drawWidth drawHeight)
                    :: calls)
          end
      end
  end.

(** The outer loop over [pages], from index [pageIdx] on. *)
Fixpoint downloadAllAsPDF_pages (L : Layout) (pages : list (list string))
    (pageIdx : Z) : option (list PdfCall) :=
  match pages with
  | [] => Some []
  | pageImages :: rest =>
      let turn := if (pageIdx >? 0)%Z then [addPage (orientation L)] else [] in
      match downloadAllAsPDF_images L pageImages 0 with
      | None => None
      | Some calls =>
          match downloadAllAsPDF_pages L rest (pageIdx + 1) with
          | None => None
          | Some more => Some (turn ++ calls ++ more)
          end
      end
  end.

Definition downloadAllAsPDF (pages : list (list string)) : option (list PdfCall) :=
  let L := downloadAllAsPDF_layout in
  match downloadAllAsPDF_pages L pages 0 with
  | None => None
  | Some calls =>
      Some (new_jsPDF (orientation L) :: calls ++ [save qris_merged_all])
  end.

End PdfExport.

(** The number shown in the [alt] text of image [imgIndex] of page
    [pageIndex]. *)
Definition altNumber (imagesPerPage pageIndex imgIndex : Z) : Z :=
  (pageIndex * imagesPerPage + imgIndex + 1)%Z.

End PrintLayout.

(** ** The application shell: [App] *)

Module App.

(** [removeQrisImage], as the updater handed to [setQrisImages]: the new
    list, and the object URLs revoked on the way. *)
Definition removeQrisImage (id : string) (prev : list ImageMerger.QRISImage)
    : list ImageMerger.QRISImage * list string :=
  let image := find (fun img => String.eqb (ImageMerger.id img) id) prev in
  let revoked :=
    match image with
    | Some image => [ImageMerger.preview image]
    | None => []
    end in
  (filter (fun img => negb (String.eqb (ImageMerger.id img) id)) prev, revoked).

(** Truthiness of a property read, as [&&] tests it. *)
Definition truthy_property (p : SettingsModal.Property) : bool :=
  match p with
  | SettingsModal.value v => SettingsModal.truthy v
  | _ => false
  end.

(** The mount effect, "Load saved settings from localStorage on mount":
    the new value of [savedSettings]. *)
Definition loadSavedSettings (parse : string -> option SettingsModal.JSON)
    (ls : SettingsModal.Storage) (savedSettings : option SettingsModal.JSON)
    : option SettingsModal.JSON :=
  match SettingsModal.getItem SettingsModal.SETTINGS_KEY ls with
  | None => savedSettings
  | Some saved =>
      if String.eqb saved EmptyString then savedSettings
      else
        match parse saved with
        | None => savedSettings
        | Some parsed =>
            match SettingsModal.get parsed "frameImage" with
            | SettingsModal.TypeError => savedSettings
            | frame =>
                if truthy_property frame
                   && truthy_property (SettingsModal.get parsed "areaConfig")
                then Some parsed
                else savedSettings
            end
        end
  end.

(** [hasSettings] *)
Definition hasSettings (savedSettings : option SettingsModal.JSON) : bool :=
  match savedSettings with
  | None => false
  | Some settings =>
      truthy_property (SettingsModal.get settings "frameImage")
      && truthy_property (SettingsModal.get settings "areaConfig")
  end.

End App.

(** ** Vocabulary of the statements *)

(** Does [loadImage] resolve this source? *)
Definition decodes (env : ImageMerger.Env) (src : string) : bool :=
  match ImageMerger.loadImage env src with
  | Some _ => true
  | None => false
  end.

(** The number of sources of one pass that fail to decode. *)
Definition failures (env : ImageMerger.Env) (qrisImages : list ImageMerger.QRISImage) : nat :=
  List.length (filter (fun q => negb (decodes env (ImageMerger.preview q))) qrisImages).

(** [isValid]: a candidate exists and is wider and taller than 1. *)
Definition committable (candidate : option AreaConfig) : Prop :=
  exists r, candidate = Some r /\ 1 < width r /\ 1 < height r.

(** A list of pages is a division into chunks of [n]: every page but the
    last has exactly [n] entries, the last has between 1 and [n]. *)
Inductive chunked {A : Type} (n : nat) : list (list A) -> Prop :=
| chunked_nil : chunked n []
| chunked_last (p : list A) :
    (1 <= List.length p <= n)%nat -> chunked n [p]
| chunked_cons (p : list A) (ps : list (list A)) :
    List.length p = n -> ps <> [] -> chunked n ps -> chunked n (p :: ps).

(** The images a sequence of [jsPDF] calls places, in order. *)
Definition placements (calls : list PrintLayout.PdfCall) : list PrintLayout.Placement :=
  flat_map (fun call =>
              match call with
              | PrintLayout.addImage p => [p]
              | _ => []
              end) calls.

(** The four fields of [config] are numbers, those of [a]. *)
Definition numeric_fields (config : SettingsModal.JSON) (a : AreaConfig) : Prop :=
  SettingsModal.get config "x" = SettingsModal.value (SettingsModal.JNumber (x a)) /\
  SettingsModal.get config "y" = SettingsModal.value (SettingsModal.JNumber (y a)) /\
  SettingsModal.get config "width" = SettingsModal.value (SettingsModal.JNumber (width a)) /\
  SettingsModal.get config "height" = SettingsModal.value (SettingsModal.JNumber (height a)).

(** The pointer is within the handle size of the corner [(cx, cy)]. *)
Definition near (pos : AreaSelector.Pos) (cx cy : Q) : Prop :=
  Qabs (AreaSelector.pos_x pos - cx) < 3 /\ Qabs (AreaSelector.pos_y pos - cy) < 3.

(** The pointer is on the rectangle, border included. *)
Definition inside (pos : AreaSelector.Pos) (area : AreaConfig) : Prop :=
  x area <= AreaSelector.pos_x pos <= x area + width area /\
  y area <= AreaSelector.pos_y pos <= y area + height area.

(** Numeric equality of two draw rectangles. *)
Definition draw_eq (d d' : ImageMerger.Draw) : Prop :=
  ImageMerger.drawX d == ImageMerger.drawX d' /\
  ImageMerger.drawY d == ImageMerger.drawY d' /\
  ImageMerger.drawWidth d == ImageMerger.drawWidth d' /\
  ImageMerger.drawHeight d == ImageMerger.drawHeight d'.

(** The sources a sequence of [jsPDF] calls places, in order. *)
Definition placed_sources (calls : list PrintLayout.PdfCall) : list string :=
  map PrintLayout.src (placements calls).

(** The number of [addPage] calls in a sequence of [jsPDF] calls. *)
Definition page_turns (calls : list PrintLayout.PdfCall) : nat :=
  List.length (filter (fun call =>
                         match call with
                         | PrintLayout.addPage _ => true
                         | _ => false
                         end) calls).


(** The placement [p] is a box of positive size inside cell number [k] of
    the grid of [L], cells being counted row by row. *)
Definition in_cell (L : PrintLayout.Layout) (k : Z) (p : PrintLayout.Placement) : Prop :=
  let col := inject_Z (Z.rem k (PrintLayout.cols L)) in
  let row := inject_Z (Math.floor (inject_Z k / inject_Z (PrintLayout.cols L))) in
  let cell_left := PrintLayout.padding L + col * PrintLayout.cellWidth L in
  let cell_top := PrintLayout.padding L + row * PrintLayout.cellHeight L in
  0 < PrintLayout.drawWidth p /\ 0 < PrintLayout.drawHeight p /\
  cell_left <= PrintLayout.at_x p /\
  PrintLayout.at_x p + PrintLayout.drawWidth p <= cell_left + PrintLayout.cellWidth L /\
  cell_top <= PrintLayout.at_y p /\
  PrintLayout.at_y p + PrintLayout.drawHeight p <= cell_top + PrintLayout.cellHeight L.

(** The placement [p] keeps the padding of [L] to every edge of the page. *)
Definition on_page (L : PrintLayout.Layout) (p : PrintLayout.Placement) : Prop :=
  PrintLayout.padding L <= PrintLayout.at_x p /\
  PrintLayout.at_x p + PrintLayout.drawWidth p
  <= PrintLayout.pageWidth L - PrintLayout.padding L /\
  PrintLayout.padding L <= PrintLayout.at_y p /\
  PrintLayout.at_y p + PrintLayout.drawHeight p
  <= PrintLayout.pageHeight L - PrintLayout.padding L.

(** Does the binary64 pass's [loadImage] resolve this source? *)
Definition decodes64 (env : Binary64.Env) (src : string) : bool :=
  match Binary64.loadImage env src with
  | Some _ => true
  | None => false
  end.

(** The placement in the words of its description: fit to the width and
    centre vertically when the source is relatively wider than the
    target, otherwise fit to the height and centre horizontally; every
    operation is a binary64 operation. *)
Definition drawn_by_aspect_fit (t : Binary64.AreaConfig) (S : Binary64.Image)
    (d : Binary64.Draw) : Prop :=
  let Sw := Binary64.img_width S in
  let Sh := Binary64.img_height S in
  let w := Binary64.width t in
  let h := Binary64.height t in
  if PrimFloat.ltb (w / h)%float (Sw / Sh)%float then
    Binary64.drawWidth d = w /\
    Binary64.drawHeight d = (w / (Sw / Sh))%float /\
    Binary64.drawX d = Binary64.x t /\
    Binary64.drawY d = (Binary64.y t + (h - Binary64.drawHeight d) / 2)%float
  else
    Binary64.drawHeight d = h /\
    Binary64.drawWidth d = (h * (Sw / Sh))%float /\
    Binary64.drawY d = Binary64.y t /\
    Binary64.drawX d = (Binary64.x t + (w - Binary64.drawWidth d) / 2)%float.

(** The container, when mounted, has a positive width and height. *)
Definition container_has_size (c : AreaSelector.Component) : Prop :=
  forall rect,
    AreaSelector.containerRef c = Some rect ->
    0 < AreaSelector.rect_width rect /\ 0 < AreaSelector.rect_height rect.

(** The calls of a document whose pages made the calls [bodies]: the first
    page's calls, then for every further page one [addPage] followed by
    that page's calls. *)
Definition page_by_page (o : PrintLayout.Orientation)
    (bodies : list (list PrintLayout.PdfCall)) : list PrintLayout.PdfCall :=
  match bodies with
  | [] => []
  | first :: rest =>
      first ++ flat_map (fun body => PrintLayout.addPage o :: body) rest
  end.

(** * Theorems *)

(** ** Comparison tests *)

Lemma gtb_true (a b : Q) : gtb a b = true <-> b < a.
Proof.
  unfold gtb. rewrite (Qgt_alt a b). destruct (a ?= b); split; congruence.
Qed.

Lemma gtb_false (a b : Q) : gtb a b = false <-> a <= b.
Proof.
  unfold gtb. rewrite (Qle_alt a b). destruct (a ?= b); split; congruence.
Qed.

Lemma ltb_true (a b : Q) : ltb a b = true <-> a < b.
Proof.
  unfold ltb. rewrite (Qlt_alt a b). destruct (a ?= b); split; congruence.
Qed.

Lemma ltb_false (a b : Q) : ltb a b = false <-> b <= a.
Proof.
  unfold ltb. rewrite (Qge_alt a b). destruct (a ?= b); split; congruence.
Qed.

Lemma geb_true (a b : Q) : geb a b = true <-> b <= a.
Proof.
  unfold geb. rewrite negb_true_iff. apply ltb_false.
Qed.

Lemma leb_true (a b : Q) : leb a b = true <-> a <= b.
Proof.
  unfold leb. rewrite negb_true_iff. apply gtb_false.
Qed.

(** [lra] after rewriting the halvings [_ / 2] as products. *)
Ltac qlra :=
  unfold Qdiv in *; change (/ 2) with (1 # 2) in *; lra.

(** ** Aspect fit in the image merger *)

Section AspectFit.

Import ImageMerger.

Variables (t : AreaConfig) (s : Image).
Hypothesis Hw : 0 < width t.
Hypothesis Hh : 0 < height t.
Hypothesis HSw : 0 < img_width s.
Hypothesis HSh : 0 < img_height s.

Let sa := img_width s / img_height s.
Let ta := width t / height t.

Lemma source_aspect_pos : 0 < sa.
Proof.
  unfold sa. apply Qlt_shift_div_l; [assumption | lra].
Qed.

Lemma target_aspect_mul : ta * height t == width t.
Proof.
  unfold ta. field. lra.
Qed.

(** In the wide branch the drawn height stays below the target's. *)
Lemma wide_height_le : ta < sa -> width t / sa <= height t.
Proof.
  intros Hlt. pose proof source_aspect_pos as Hsa.
  apply Qle_shift_div_r; [assumption |].
  rewrite <- target_aspect_mul.
  assert (0 <= (sa - ta) * height t) by (apply Qmult_le_0_compat; lra).
  lra.
Qed.

Lemma wide_height_pos : 0 < width t / sa.
Proof.
  pose proof source_aspect_pos. apply Qlt_shift_div_l; [assumption | lra].
Qed.

(** In the tall branch the drawn width stays below the target's. *)
Lemma tall_width_le : sa <= ta -> height t * sa <= width t.
Proof.
  intros Hle. rewrite <- target_aspect_mul.
  assert (0 <= (ta - sa) * height t) by (apply Qmult_le_0_compat; lra).
  lra.
Qed.

Lemma tall_width_pos : 0 < height t * sa.
Proof.
  pose proof source_aspect_pos. apply Qmult_lt_0_compat; assumption.
Qed.

(** In exact arithmetic: for a target rectangle of positive size and a
    source image of positive size, the source is drawn at the numbers the
    two branches give (fit to width and centre vertically when the source is
    relatively wider, otherwise fit to height and centre horizontally);
    either way the drawn rectangle has the source's aspect ratio and lies
    inside the target rectangle. *)
Theorem aspect_fit_preserves_ratio_and_bounds :
  let d := fit t s in
  let Sw := img_width s in
  let Sh := img_height s in
  (width t / height t < Sw / Sh ->
     drawWidth d == width t /\
     drawHeight d == width t / (Sw / Sh) /\
     drawX d == x t /\
     drawY d == y t + (height t - drawHeight d) / 2) /\
  (~ width t / height t < Sw / Sh ->
     drawHeight d == height t /\
     drawWidth d == height t * (Sw / Sh) /\
     drawY d == y t /\
     drawX d == x t + (width t - drawWidth d) / 2) /\
  drawWidth d / drawHeight d == Sw / Sh /\
  x t <= drawX d /\
  y t <= drawY d /\
  drawX d + drawWidth d <= x t + width t /\
  drawY d + drawHeight d <= y t + height t.
Proof.
  intros d Sw Sh. subst d Sw Sh. fold sa. fold ta.
  pose proof source_aspect_pos as Hsa.
  unfold fit. fold sa. fold ta.
  destruct (gtb sa ta) eqn:Hcmp; cbn [drawX drawY drawWidth drawHeight].
  - apply gtb_true in Hcmp.
    pose proof (wide_height_le Hcmp) as Hle.
    pose proof wide_height_pos as Hpos.
    split; [intros _; repeat split; reflexivity |].
    split; [intros Hn; contradiction |].
    split; [field; split; lra |].
    set (dh := width t / sa) in *. clearbody dh. clear Hcmp Hsa.
    repeat split; qlra.
  - apply gtb_false in Hcmp.
    pose proof (tall_width_le Hcmp) as Hle.
    pose proof tall_width_pos as Hpos.
    split; [intros Hlt; lra |].
    split; [intros _; repeat split; reflexivity |].
    split; [field; lra |].
    set (dw := height t * sa) in *. clearbody dw. clear Hcmp Hsa.
    repeat split; qlra.
Qed.

End AspectFit.

(** The worked example: target [{x:100, y:100, width:100, height:200}] and a
    200x100 source give [drawWidth = 100], [drawHeight = 50],
    [drawX = 100], [drawY = 175]. *)
Lemma aspect_fit_example :
  let d := ImageMerger.fit (mkArea 100 100 100 200) (mkImage 200 100) in
  ImageMerger.drawWidth d == 100 /\ ImageMerger.drawHeight d == 50 /\
  ImageMerger.drawX d == 100 /\ ImageMerger.drawY d == 175.
Proof.
  assert (H1 : 0 < width (mkArea 100 100 100 200)) by reflexivity.
  assert (H2 : 0 < height (mkArea 100 100 100 200)) by reflexivity.
  assert (H3 : 0 < img_width (mkImage 200 100)) by reflexivity.
  assert (H4 : 0 < img_height (mkImage 200 100)) by reflexivity.
  destruct (aspect_fit_preserves_ratio_and_bounds
              (mkArea 100 100 100 200) (mkImage 200 100) H1 H2 H3 H4)
    as [Hwide _].
  destruct Hwide as (Hdw & Hdh & Hdx & Hdy); [reflexivity |].
  cbn zeta. split; [exact Hdw |]. split; [rewrite Hdh; reflexivity |].
  split; [exact Hdx |]. rewrite Hdy, Hdh. reflexivity.
Defined.

(** The same example starting from the percentage rectangle on a 400x400
    frame. *)
Lemma percent_rectangle_on_frame_example :
  let target := ImageMerger.targetArea (mkArea 25 25 25 50) (mkImage 400 400) in
  let d := ImageMerger.fit target (mkImage 200 100) in
  area_eq target (mkArea 100 100 100 200) /\
  ImageMerger.drawWidth d == 100 /\ ImageMerger.drawHeight d == 50 /\
  ImageMerger.drawX d == 100 /\ ImageMerger.drawY d == 175.
Proof.
  cbv zeta. repeat split; vm_compute; reflexivity.
Qed.

(** ** One compositing pass *)

Section MergePass.

Import ImageMerger.

Variables (env : Env) (frameImage : string) (frameImg : Image) (target : AreaConfig).

Lemma mergeLoop_acc (qrisImages : list QRISImage) (acc : list Merged) :
  mergeLoop env frameImage frameImg target qrisImages acc
  = acc ++ mergeLoop env frameImage frameImg target qrisImages [].
Proof.
  revert acc. induction qrisImages as [| q rest IH]; intros acc; simpl.
  - now rewrite app_nil_r.
  - destruct (loadImage env (preview q)) as [img |].
    + rewrite IH. rewrite (IH [_]). now rewrite <- app_assoc.
    + apply IH.
Qed.

Lemma mergeLoop_sources (qrisImages : list QRISImage) :
  map qris_src (mergeLoop env frameImage frameImg target qrisImages [])
  = filter (decodes env) (map preview qrisImages).
Proof.
  induction qrisImages as [| q rest IH]; simpl; [reflexivity |].
  unfold decodes at 1.
  destruct (loadImage env (preview q)) as [img |].
  - rewrite mergeLoop_acc. simpl. now rewrite IH.
  - exact IH.
Qed.

Lemma mergeLoop_count (qrisImages : list QRISImage) :
  (List.length (mergeLoop env frameImage frameImg target qrisImages [])
   + failures env qrisImages = List.length qrisImages)%nat.
Proof.
  unfold failures.
  induction qrisImages as [| q rest IH]; simpl; [reflexivity |].
  unfold decodes at 1.
  destruct (loadImage env (preview q)) as [img |]; simpl.
  - rewrite mergeLoop_acc. simpl. lia.
  - lia.
Qed.


End MergePass.

(** ** The pass in binary64 *)

Section MergePass64.

Variables (env : Binary64.Env) (frameImage : string) (frameImg : Binary64.Image)
          (target : Binary64.AreaConfig).

Lemma mergeLoop64_acc (qrisImages : list ImageMerger.QRISImage)
    (acc : list Binary64.Merged) :
  Binary64.mergeLoop env frameImage frameImg target qrisImages acc
  = acc ++ Binary64.mergeLoop env frameImage frameImg target qrisImages [].
Proof.
  revert acc. induction qrisImages as [| q rest IH]; intros acc; simpl.
  - now rewrite app_nil_r.
  - destruct (Binary64.loadImage env (ImageMerger.preview q)) as [img |].
    + rewrite IH. rewrite (IH [_]). now rewrite <- app_assoc.
    + apply IH.
Qed.

Lemma mergeLoop64_sources (qrisImages : list ImageMerger.QRISImage) :
  map Binary64.qris_src
      (Binary64.mergeLoop env frameImage frameImg target qrisImages [])
  = filter (decodes64 env) (map ImageMerger.preview qrisImages).
Proof.
  induction qrisImages as [| q rest IH]; simpl; [reflexivity |].
  unfold decodes64 at 1.
  destruct (Binary64.loadImage env (ImageMerger.preview q)) as [img |].
  - rewrite mergeLoop64_acc. simpl. now rewrite IH.
  - exact IH.
Qed.

Lemma fit64_by_aspect_fit (S : Binary64.Image) :
  drawn_by_aspect_fit target S (Binary64.fit target S).
Proof.
  unfold drawn_by_aspect_fit, Binary64.fit. cbv zeta.
  destruct (PrimFloat.ltb _ _); repeat split; reflexivity.
Qed.

Lemma mergeLoop64_placed (qrisImages : list ImageMerger.QRISImage) :
  Forall (fun m =>
            Binary64.canvas_width m = Binary64.img_width frameImg /\
            Binary64.canvas_height m = Binary64.img_height frameImg /\
            exists S,
              Binary64.loadImage env (Binary64.qris_src m) = Some S /\
              drawn_by_aspect_fit target S (Binary64.placed m))
         (Binary64.mergeLoop env frameImage frameImg target qrisImages []).
Proof.
  induction qrisImages as [| q rest IH]; simpl; [constructor |].
  destruct (Binary64.loadImage env (ImageMerger.preview q)) as [img |] eqn:Hload;
    [| exact IH].
  rewrite mergeLoop64_acc. constructor; [| exact IH].
  simpl. split; [reflexivity |]. split; [reflexivity |].
  exists img. split; [exact Hload | apply fit64_by_aspect_fit].
Qed.

End MergePass64.

(** C1 as stated fails in the arithmetic the code runs on.  For the target
    [{x:0, y:0, w:44, h:340}] and a 44 x 340 source (all sizes positive,
    equal aspect ratios, so the second branch is taken) the code computes
    [drawW = 340 * (44 / 340) = 0x1.6000000000001p+5], that is
    44.000000000000007, wider than the target, and [drawX = -0x1p-48],
    that is -3.55e-15, left of it; the same numbers come out
    of a pass with the percentage rectangle [{0, 0, 11, 85}] on a
    400 x 400 frame. *)
Lemma aspect_fit_rounds_past_the_target :
  let t := Binary64.mkArea 0 0 44 340 in
  let S := Binary64.mkImage 44 340 in
  let d := Binary64.fit t S in
  PrimFloat.ltb 0 (Binary64.width t) = true /\
  PrimFloat.ltb 0 (Binary64.height t) = true /\
  PrimFloat.ltb 0 (Binary64.img_width S) = true /\
  PrimFloat.ltb 0 (Binary64.img_height S) = true /\
  Binary64.targetArea (Binary64.mkArea 0 0 11 85) (Binary64.mkImage 400 400) = t /\
  Binary64.drawWidth d = 0x1.6000000000001p+5%float /\
  PrimFloat.ltb (Binary64.width t) (Binary64.drawWidth d) = true /\
  Binary64.drawX d = (-0x1p-48)%float /\
  PrimFloat.ltb (Binary64.drawX d) (Binary64.x t) = true.
Proof.
  cbv zeta. repeat split; vm_compute; reflexivity.
Qed.

(** C1, amended.  What [mergeImages] draws, in binary64: every decodable
    source is drawn once, in order, on a canvas of the frame's size, at
    the numbers of the aspect fit in the rectangle scaled to the frame's
    pixels: [drawW = w], [drawH = w / (Sw / Sh)], [drawX = x],
    [drawY = y + (h - drawH) / 2] when [Sw / Sh > w / h], otherwise
    [drawH = h], [drawW = h * (Sw / Sh)], [drawY = y],
    [drawX = x + (w - drawW) / 2], each operation rounded.  Computed in
    exact arithmetic with positive sizes, these numbers have the source's
    aspect ratio and lie inside the target rectangle.  For the target
    [{x:100, y:100, w:100, h:200}] and a 200 x 100 source the binary64
    numbers are exactly [drawW = 100], [drawH = 50], [drawX = 100],
    [drawY = 175]. *)
Theorem compositor_draws_by_aspect_fit :
  (forall (env : Binary64.Env) (frameImage : string)
          (qrisImages : list ImageMerger.QRISImage)
          (areaConfig : Binary64.AreaConfig) (merged : list Binary64.Merged),
     Binary64.mergeImages env frameImage qrisImages areaConfig = Some merged ->
     exists frameImg,
       Binary64.loadImage env frameImage = Some frameImg /\
       map Binary64.qris_src merged
       = filter (decodes64 env) (map ImageMerger.preview qrisImages) /\
       Forall (fun m =>
                 Binary64.canvas_width m = Binary64.img_width frameImg /\
                 Binary64.canvas_height m = Binary64.img_height frameImg /\
                 exists S,
                   Binary64.loadImage env (Binary64.qris_src m) = Some S /\
                   drawn_by_aspect_fit (Binary64.targetArea areaConfig frameImg) S
                                       (Binary64.placed m))
              merged) /\
  (forall (t : AreaConfig) (s : Image),
     0 < width t -> 0 < height t -> 0 < img_width s -> 0 < img_height s ->
     let d := ImageMerger.fit t s in
     ImageMerger.drawWidth d / ImageMerger.drawHeight d
     == img_width s / img_height s /\
     x t <= ImageMerger.drawX d /\
     y t <= ImageMerger.drawY d /\
     ImageMerger.drawX d + ImageMerger.drawWidth d <= x t + width t /\
     ImageMerger.drawY d + ImageMerger.drawHeight d <= y t + height t) /\
  Binary64.fit (Binary64.mkArea 100 100 100 200) (Binary64.mkImage 200 100)
  = Binary64.mkDraw 100 175 100 50 /\
  Binary64.mergeImages
    (Binary64.mkEnv true true
       (fun src => if String.eqb src "frame"
                   then Some (Binary64.mkImage 400 400)
                   else Some (Binary64.mkImage 200 100)))
    "frame" [ImageMerger.mkQRIS "1" "code"] (Binary64.mkArea 25 25 25 50)
  = Some [Binary64.mkMerged 400 400 "frame" "code" (Binary64.mkDraw 100 175 100 50)].
Proof.
  split; [| split; [| split]].
  - intros env frameImage qrisImages areaConfig merged.
    unfold Binary64.mergeImages.
    destruct (negb (Binary64.canvasRef env)); [discriminate |].
    destruct (negb (Binary64.getContext env)); [discriminate |].
    destruct (Binary64.loadImage env frameImage) as [frameImg |]; [| discriminate].
    intros [= <-]. exists frameImg. split; [reflexivity |].
    split; [apply mergeLoop64_sources | apply mergeLoop64_placed].
  - intros t s Hw Hh HSw HSh.
    destruct (aspect_fit_preserves_ratio_and_bounds t s Hw Hh HSw HSh)
      as (_ & _ & Hrest).
    exact Hrest.
  - vm_compute. reflexivity.
  - vm_compute. reflexivity.
Qed.

(** C4.  When the canvas and the frame are available, a pass over [N]
    source images of which [k] fail to decode hands [N - k] composited
    images to [onMergedImagesReady]: no failure aborts the pass, and the
    results are the decodable sources in their original order. *)
Theorem merge_skips_failed_sources
    (env : ImageMerger.Env) (frameImage : string) (frameImg : Image)
    (qrisImages : list ImageMerger.QRISImage) (areaConfig : AreaConfig) :
  ImageMerger.canvasRef env = true ->
  ImageMerger.getContext env = true ->
  ImageMerger.loadImage env frameImage = Some frameImg ->
  exists merged,
    ImageMerger.mergeImages env frameImage qrisImages areaConfig = Some merged /\
    (List.length merged + failures env qrisImages = List.length qrisImages)%nat /\
    List.length merged = (List.length qrisImages - failures env qrisImages)%nat /\
    map ImageMerger.qris_src merged
    = filter (decodes env) (map ImageMerger.preview qrisImages).
Proof.
  intros Hcanvas Hctx Hframe.
  unfold ImageMerger.mergeImages. rewrite Hcanvas, Hctx, Hframe. simpl.
  eexists. split; [reflexivity |].
  pose proof (mergeLoop_count env frameImage frameImg
                (ImageMerger.targetArea areaConfig frameImg) qrisImages) as Hn.
  split; [exact Hn |]. split; [lia |].
  apply mergeLoop_sources.
Qed.

(** Three sources, the middle one undecodable: two results, in order. *)
Lemma merge_skips_failed_sources_example :
  let env :=
    ImageMerger.mkEnv true true
      (fun src => if String.eqb src "broken" then None else Some (mkImage 200 100)) in
  let qrisImages :=
    [ImageMerger.mkQRIS "1" "first"; ImageMerger.mkQRIS "2" "broken";
     ImageMerger.mkQRIS "3" "third"] in
  exists merged,
    ImageMerger.mergeImages env "frame" qrisImages (mkArea 25 25 25 50) = Some merged /\
    List.length merged = 2%nat /\
    map ImageMerger.qris_src merged = ["first"; "third"].
Proof.
  intros env qrisImages.
  destruct (merge_skips_failed_sources env "frame" (mkImage 200 100) qrisImages
              (mkArea 25 25 25 50) eq_refl eq_refl eq_refl)
    as (merged & Hrun & _ & Hlen & Hsrc).
  exists merged. split; [exact Hrun |]. split; [exact Hlen | exact Hsrc].
Defined.

(** ** The rectangle editor *)

Section Editor.

Import AreaSelector.

(** *** Clamping *)

Lemma max_min_inside (hi v : Q) :
  0 <= v -> v <= hi -> Math.max 0 (Math.min hi v) == v.
Proof.
  intros H0 Hhi. unfold Math.max, Math.min.
  destruct (Q.min_spec hi v) as [[Hlt Hmin] | [Hle Hmin]];
    destruct (Q.max_spec 0 (Qmin hi v)) as [[Hlt' Hmax] | [Hle' Hmax]];
    rewrite Hmax; lra.
Qed.

Lemma max_min_range (hi v : Q) :
  0 <= Math.max 0 (Math.min hi v) /\
  (0 <= hi -> Math.max 0 (Math.min hi v) <= hi).
Proof.
  unfold Math.max, Math.min.
  destruct (Q.min_spec hi v) as [[Hlt Hmin] | [Hle Hmin]];
    destruct (Q.max_spec 0 (Qmin hi v)) as [[Hlt' Hmax] | [Hle' Hmax]];
    rewrite Hmax; split; intros; lra.
Qed.

(** Pointer positions are percentages between 0 and 100. *)
Lemma getRelativePosition_range (c : Component) (e : MouseEvent) :
  let pos := getRelativePosition c e in
  0 <= pos_x pos <= 100 /\ 0 <= pos_y pos <= 100.
Proof.
  unfold getRelativePosition. destruct (containerRef c) as [rect |]; cbn.
  - split; split; apply max_min_range; lra.
  - repeat split; lra.
Qed.

(** *** What the handlers leave alone *)

Lemma getCornerAtPosition_active (pos : Pos) (area : AreaConfig) :
  getCornerAtPosition pos area <> none.
Proof.
  unfold getCornerAtPosition. cbn [find].
  repeat match goal with
         | |- context [if ?b then _ else _] => destruct b
         end; discriminate.
Qed.

Lemma handleMouseDown_active (e : MouseEvent) (c : Component) :
  dragMode (handleMouseDown e c) <> none.
Proof.
  unfold handleMouseDown. destruct (areaConfig c) as [area |]; [| discriminate].
  pose proof (getCornerAtPosition_active (getRelativePosition c e) area) as Hm.
  destruct (DragMode_eqb _ draw); exact Hm.
Qed.

Lemma handleMouseDown_persisted (e : MouseEvent) (c : Component) :
  areaConfig (handleMouseDown e c) = areaConfig c /\
  areaChanged (handleMouseDown e c) = areaChanged c.
Proof.
  unfold handleMouseDown. destruct (areaConfig c) as [area |] eqn:Harea.
  - destruct (DragMode_eqb _ draw); cbn; rewrite ?Harea; split; reflexivity.
  - cbn. rewrite Harea. split; reflexivity.
Qed.

Lemma handleMouseMove_persisted (e : MouseEvent) (c : Component) :
  areaConfig (handleMouseMove e c) = areaConfig c /\
  areaChanged (handleMouseMove e c) = areaChanged c /\
  dragMode (handleMouseMove e c) = dragMode c.
Proof.
  unfold handleMouseMove.
  destruct (dragMode c) eqn:Hmode; destruct (dragStart c) as [start |];
    destruct (originalArea c) as [orig |]; cbn; rewrite ?Hmode;
    repeat split; reflexivity.
Qed.

Lemma moves_persisted (moves : list MouseEvent) (c : Component) :
  let held := fold_left (fun c e => handleMouseMove e c) moves c in
  areaConfig held = areaConfig c /\
  areaChanged held = areaChanged c /\
  dragMode held = dragMode c.
Proof.
  revert c. induction moves as [| e rest IH]; intros c; cbn.
  - repeat split; reflexivity.
  - destruct (IH (handleMouseMove e c)) as (H1 & H2 & H3).
    destruct (handleMouseMove_persisted e c) as (H4 & H5 & H6).
    cbn in H1, H2, H3. rewrite H1, H2, H3. repeat split; assumption.
Qed.

Lemma handleMouseUp_cleared (c : Component) :
  dragMode (handleMouseUp c) = none /\
  dragStart (handleMouseUp c) = None /\
  tempArea (handleMouseUp c) = None /\
  originalArea (handleMouseUp c) = None.
Proof.
  unfold handleMouseUp. repeat split; reflexivity.
Qed.

Lemma handleMouseUp_commit (c : Component) (r : AreaConfig) :
  dragMode c <> none -> tempArea c = Some r -> 1 < width r -> 1 < height r ->
  areaConfig (handleMouseUp c) = Some r /\
  areaChanged (handleMouseUp c) = areaChanged c ++ [Some r].
Proof.
  intros Hmode Htemp Hw Hh. unfold handleMouseUp. rewrite Htemp.
  apply gtb_true in Hw. apply gtb_true in Hh. rewrite Hw, Hh.
  destruct (dragMode c); [contradiction | ..]; cbn; split; reflexivity.
Qed.

Lemma handleMouseUp_discard (c : Component) :
  ~ committable (tempArea c) ->
  areaConfig (handleMouseUp c) = areaConfig c /\
  areaChanged (handleMouseUp c) = areaChanged c.
Proof.
  intros Hno. unfold handleMouseUp.
  destruct (negb (DragMode_eqb (dragMode c) none)); [| split; reflexivity].
  destruct (tempArea c) as [r |]; [| split; reflexivity].
  destruct (gtb (width r) 1) eqn:Hw; [| split; reflexivity].
  destruct (gtb (height r) 1) eqn:Hh; [| split; reflexivity].
  exfalso. apply Hno. exists r. apply gtb_true in Hw. apply gtb_true in Hh.
  repeat split; assumption.
Qed.

End Editor.

(** C5.  In every pointer gesture (press, moves, release), the release
    commits the candidate as the persisted rectangle, calling
    [onAreaChange] with it, exactly when the candidate exists with
    [width > 1] and [height > 1]; otherwise nothing is reported and the
    persisted rectangle is the one from before the press.  Either way the
    drag mode, anchor, candidate and original rectangle are cleared. *)
Theorem pointer_up_commits_iff_valid
    (c : AreaSelector.Component) (down : AreaSelector.MouseEvent)
    (moves : list AreaSelector.MouseEvent) :
  let held :=
    fold_left (fun c e => AreaSelector.handleMouseMove e c) moves
              (AreaSelector.handleMouseDown down c) in
  let released := AreaSelector.gesture down moves c in
  (committable (AreaSelector.tempArea held) <->
     AreaSelector.areaChanged released
     = AreaSelector.areaChanged c ++ [AreaSelector.tempArea held]) /\
  (committable (AreaSelector.tempArea held) ->
     AreaSelector.areaConfig released = AreaSelector.tempArea held) /\
  (~ committable (AreaSelector.tempArea held) ->
     AreaSelector.areaConfig released = AreaSelector.areaConfig c /\
     AreaSelector.areaChanged released = AreaSelector.areaChanged c) /\
  AreaSelector.dragMode released = AreaSelector.none /\
  AreaSelector.dragStart released = None /\
  AreaSelector.tempArea released = None /\
  AreaSelector.originalArea released = None.
Proof.
  intros held released. subst released. unfold AreaSelector.gesture. fold held.
  destruct (moves_persisted moves (AreaSelector.handleMouseDown down c))
    as (Hcfg & Hlog & Hmode).
  fold held in Hcfg, Hlog, Hmode.
  destruct (handleMouseDown_persisted down c) as (Hcfg0 & Hlog0).
  pose proof (handleMouseDown_active down c) as Hactive.
  rewrite <- Hmode in Hactive. rewrite Hcfg0 in Hcfg. rewrite Hlog0 in Hlog.
  assert (Hyes : committable (AreaSelector.tempArea held) ->
                 AreaSelector.areaConfig (AreaSelector.handleMouseUp held)
                 = AreaSelector.tempArea held /\
                 AreaSelector.areaChanged (AreaSelector.handleMouseUp held)
                 = AreaSelector.areaChanged c ++ [AreaSelector.tempArea held]).
  { intros (r & Hr & Hw & Hh).
    destruct (handleMouseUp_commit held r Hactive Hr Hw Hh) as (H1 & H2).
    rewrite H1, H2, Hr, Hlog. split; reflexivity. }
  assert (Hno : ~ committable (AreaSelector.tempArea held) ->
                AreaSelector.areaConfig (AreaSelector.handleMouseUp held)
                = AreaSelector.areaConfig c /\
                AreaSelector.areaChanged (AreaSelector.handleMouseUp held)
                = AreaSelector.areaChanged c).
  { intros Hn. destruct (handleMouseUp_discard held Hn) as (H1 & H2).
    rewrite H1, H2, Hcfg, Hlog. split; reflexivity. }
  split; [| split; [apply Hyes | split; [exact Hno | apply handleMouseUp_cleared]]].
  split; [apply Hyes |].
  intros Hlogged.
  destruct (AreaSelector.tempArea held) as [r |] eqn:Hr.
  - destruct (Qlt_le_dec 1 (width r)) as [Hw | Hw];
      [destruct (Qlt_le_dec 1 (height r)) as [Hh | Hh] |].
    + exists r. repeat split; assumption.
    + exfalso. destruct Hno as (_ & H2).
      { intros (r' & Hr' & _ & Hh'). injection Hr' as <-. lra. }
      rewrite H2 in Hlogged.
      apply (f_equal (@List.length _)) in Hlogged.
      rewrite length_app in Hlogged. simpl in Hlogged. lia.
    + exfalso. destruct Hno as (_ & H2).
      { intros (r' & Hr' & Hw' & _). injection Hr' as <-. lra. }
      rewrite H2 in Hlogged.
      apply (f_equal (@List.length _)) in Hlogged.
      rewrite length_app in Hlogged. simpl in Hlogged. lia.
  - exfalso. destruct Hno as (_ & H2).
    { intros (r' & Hr' & _). discriminate. }
    rewrite H2 in Hlogged.
    apply (f_equal (@List.length _)) in Hlogged.
    rewrite length_app in Hlogged. simpl in Hlogged. lia.
Qed.

(** A press and release with a move of half a percent: the candidate is
    too narrow, nothing is reported and there is still no rectangle. *)
Lemma tiny_draw_is_discarded :
  let c0 :=
    AreaSelector.mkComponent (Some (AreaSelector.mkDOMRect 0 0 100 100))
      None [] AreaSelector.none None None None in
  let c :=
    AreaSelector.gesture (AreaSelector.mkEvent 10 10)
      [AreaSelector.mkEvent (21 # 2) 50] c0 in
  AreaSelector.areaConfig c = None /\ AreaSelector.areaChanged c = [] /\
  AreaSelector.dragMode c = AreaSelector.none.
Proof.
  cbv zeta. repeat split; reflexivity.
Qed.

(** Drawing from (10, 10) to (60, 40) commits [{10, 10, 50, 30}]. *)
Lemma draw_is_committed :
  let c0 :=
    AreaSelector.mkComponent (Some (AreaSelector.mkDOMRect 0 0 100 100))
      None [] AreaSelector.none None None None in
  let c :=
    AreaSelector.gesture (AreaSelector.mkEvent 10 10)
      [AreaSelector.mkEvent 30 20; AreaSelector.mkEvent 60 40] c0 in
  exists r,
    AreaSelector.areaConfig c = Some r /\
    AreaSelector.areaChanged c = [Some r] /\
    area_eq r (mkArea 10 10 50 30).
Proof.
  cbv zeta. eexists. split; [vm_compute; reflexivity |].
  split; [vm_compute; reflexivity |].
  repeat split; reflexivity.
Qed.

(** C8.  Resizing from the top-left corner of [{x:10, y:10, width:40,
    height:40}] with a pointer delta of (+5, +5) gives the candidate
    [{x:15, y:15, width:35, height:35}]; its bottom-right corner is still
    at (50, 50). *)
Theorem resize_tl_by_five
    (c : AreaSelector.Component) (e : AreaSelector.MouseEvent)
    (start : AreaSelector.Pos) (orig : AreaConfig) :
  AreaSelector.dragMode c = AreaSelector.resize_tl ->
  AreaSelector.dragStart c = Some start ->
  AreaSelector.originalArea c = Some orig ->
  area_eq orig (mkArea 10 10 40 40) ->
  AreaSelector.pos_x (AreaSelector.getRelativePosition c e)
    - AreaSelector.pos_x start == 5 ->
  AreaSelector.pos_y (AreaSelector.getRelativePosition c e)
    - AreaSelector.pos_y start == 5 ->
  exists candidate,
    AreaSelector.tempArea (AreaSelector.handleMouseMove e c) = Some candidate /\
    area_eq candidate (mkArea 15 15 35 35) /\
    x candidate + width candidate == 50 /\
    y candidate + height candidate == 50.
Proof.
  intros Hmode Hstart Horig (Hox & Hoy & How & Hoh) Hdx Hdy.
  cbn [x y width height] in Hox, Hoy, How, Hoh.
  unfold AreaSelector.handleMouseMove. rewrite Hmode, Hstart, Horig.
  cbn [AreaSelector.startsWith_resize AreaSelector.setTempArea AreaSelector.tempArea].
  eexists. split; [reflexivity |].
  unfold AreaSelector.resize.
  set (dx := AreaSelector.pos_x _ - AreaSelector.pos_x start) in *.
  set (dy := AreaSelector.pos_y _ - AreaSelector.pos_y start) in *.
  clearbody dx dy.
  destruct (ltb (width orig - dx) 2) eqn:Hw; [apply ltb_true in Hw; lra |].
  destruct (ltb (height orig - dy) 2) eqn:Hh; [apply ltb_true in Hh; lra |].
  assert (Hx : Math.max 0 (Math.min (100 - (width orig - dx)) (x orig + dx))
               == x orig + dx)
    by (apply max_min_inside; lra).
  assert (Hy : Math.max 0 (Math.min (100 - (height orig - dy)) (y orig + dy))
               == y orig + dy)
    by (apply max_min_inside; lra).
  unfold area_eq. cbn [x y width height].
  rewrite Hx, Hy. repeat split; lra.
Qed.

(** The gesture behind C8: press on the top-left handle, move by (5, 5). *)
Lemma resize_tl_by_five_example :
  let c0 :=
    AreaSelector.mkComponent (Some (AreaSelector.mkDOMRect 0 0 100 100))
      (Some (mkArea 10 10 40 40)) [] AreaSelector.none None None None in
  let c := AreaSelector.handleMouseDown (AreaSelector.mkEvent 10 10) c0 in
  exists candidate,
    AreaSelector.tempArea
      (AreaSelector.handleMouseMove (AreaSelector.mkEvent 15 15) c)
    = Some candidate /\
    area_eq candidate (mkArea 15 15 35 35) /\
    x candidate + width candidate == 50 /\
    y candidate + height candidate == 50.
Proof.
  intros c0 c.
  apply (resize_tl_by_five c (AreaSelector.mkEvent 15 15)
           (AreaSelector.getRelativePosition c0 (AreaSelector.mkEvent 10 10))
           (mkArea 10 10 40 40));
    try reflexivity.
  repeat split; reflexivity.
Defined.

(** ** Resizing near the edge of the frame *)

Section ResizeBounds.

Import AreaSelector.

Variables (mode : DragMode) (orig : AreaConfig) (start pos : Pos).

(** The re-clamp keeps the top-left corner at or after the origin, and
    both sizes at or above the floor of 2. *)
Lemma resize_lower_bounds :
  let r := resize mode orig start pos in
  0 <= x r /\ 0 <= y r /\ 2 <= width r /\ 2 <= height r.
Proof.
  unfold resize.
  destruct mode; cbn [x y width height];
    repeat match goal with
           | |- context [ltb ?a 2] =>
               let H := fresh "H" in
               destruct (ltb a 2) eqn:H;
               [apply ltb_true in H | apply ltb_false in H]
           end;
    repeat split;
    try apply max_min_range; lra.
Qed.

(** The re-clamp keeps the far edges inside the frame whenever the resized
    width and height themselves do not exceed 100. *)
Lemma resize_fits_when_size_fits :
  let r := resize mode orig start pos in
  width r <= 100 -> height r <= 100 -> in_bounds r.
Proof.
  unfold resize, in_bounds.
  destruct mode; cbn [x y width height];
    repeat match goal with
           | |- context [ltb ?a 2] =>
               let H := fresh "H" in
               destruct (ltb a 2) eqn:H;
               [apply ltb_true in H | apply ltb_false in H]
           end;
    intros Hw Hh;
    repeat match goal with
           | |- context [Math.max 0 (Math.min ?hi ?v)] =>
               let H := fresh "Hc" in
               pose proof (max_min_range hi v) as H;
               generalize dependent (Math.max 0 (Math.min hi v)); intros
           end;
    repeat split; lra.
Qed.

End ResizeBounds.

(** C2, at the failing gesture.  The rectangle [{x:0, y:0, width:50,
    height:50}] satisfies the invariants; pressing at (48, 48) grabs its
    bottom-right handle; moving to (100, 100) makes the candidate
    [{x:0, y:0, width:102, height:102}], whose right and bottom edges are
    at 102, outside the frame. *)
Theorem resize_br_leaves_the_frame :
  let orig := mkArea 0 0 50 50 in
  let c0 :=
    AreaSelector.mkComponent (Some (AreaSelector.mkDOMRect 0 0 100 100))
      (Some orig) [] AreaSelector.none None None None in
  let c := AreaSelector.handleMouseDown (AreaSelector.mkEvent 48 48) c0 in
  rect_invariants orig /\
  AreaSelector.dragMode c = AreaSelector.resize_br /\
  exists candidate,
    AreaSelector.tempArea
      (AreaSelector.handleMouseMove (AreaSelector.mkEvent 100 100) c)
    = Some candidate /\
    area_eq candidate (mkArea 0 0 102 102) /\
    ~ x candidate + width candidate <= 100 /\
    ~ y candidate + height candidate <= 100 /\
    ~ in_bounds candidate.
Proof.
  cbv zeta. split.
  - unfold rect_invariants, in_bounds. cbn. repeat split; lra.
  - split; [reflexivity |].
    eexists. split; [vm_compute; reflexivity |].
    unfold area_eq, in_bounds. cbn [x y width height].
    split; [| split; [| split]].
    + split; [| split; [| split]]; reflexivity.
    + intros Hle. vm_compute in Hle. apply Hle. reflexivity.
    + intros Hle. vm_compute in Hle. apply Hle. reflexivity.
    + intros (_ & _ & Hle & _). vm_compute in Hle. apply Hle. reflexivity.
Qed.

(** ** Grid shape *)



(** With [imagesPerPage = 3] the on-screen grid has two columns, but both
    PDF exports lay the page out in three columns and one row. *)
Theorem pdf_fallback_is_three_columns :
  PrintLayout.getGridClass 3 = "grid-cols-2" /\
  PrintLayout.cols (PrintLayout.downloadPageAsPDF_layout 3) = 3%Z /\
  PrintLayout.rows (PrintLayout.downloadPageAsPDF_layout 3) = 1%Z /\
  PrintLayout.cols (PrintLayout.downloadAllAsPDF_layout 3) = 3%Z /\
  PrintLayout.rows (PrintLayout.downloadAllAsPDF_layout 3) = 1%Z.
Proof.
  repeat split; reflexivity.
Qed.




(** ** Pagination *)

Section Pagination.

Import PrintLayout.

Variable mergedImages : list string.
Variable imagesPerPage : Z.

Let len := Z.of_nat (List.length mergedImages).

(** More fuel does not change a result. *)
Lemma pages_from_more_fuel (fuel : nat) :
  forall (extra : nat) (i : Z) (acc result : list (list string)),
    pages_from fuel mergedImages imagesPerPage i acc = Some result ->
    pages_from (fuel + extra) mergedImages imagesPerPage i acc = Some result.
Proof.
  induction fuel as [| fuel IH]; intros extra i acc result; simpl.
  - discriminate.
  - destruct (i <? _)%Z; [apply IH | trivial].
Qed.

Lemma pages_from_deterministic (fuel fuel' : nat) (i : Z)
    (acc r r' : list (list string)) :
  pages_from fuel mergedImages imagesPerPage i acc = Some r ->
  pages_from fuel' mergedImages imagesPerPage i acc = Some r' ->
  r = r'.
Proof.
  intros H H'.
  apply (pages_from_more_fuel fuel fuel') in H.
  apply (pages_from_more_fuel fuel' fuel) in H'.
  rewrite Nat.add_comm in H'. congruence.
Qed.

Hypothesis positive : (1 <= imagesPerPage)%Z.

(** Inside the array, [slice(i, i + imagesPerPage)] is the next
    [imagesPerPage] entries after the first [i]. *)
Lemma slice_next (i : Z) :
  (0 <= i < len)%Z ->
  slice mergedImages i (i + imagesPerPage)
  = firstn (Z.to_nat imagesPerPage) (skipn (Z.to_nat i) mergedImages).
Proof.
  intros Hi. unfold slice. fold len.
  destruct (Z.ltb_spec i 0); [lia |].
  destruct (Z.ltb_spec (i + imagesPerPage) 0); [lia |].
  rewrite (Z.min_l i len) by lia.
  destruct (Z.le_ge_cases (i + imagesPerPage) len) as [Hin | Hout].
  - rewrite Z.min_l by lia. f_equal. lia.
  - rewrite Z.min_r by lia.
    rewrite !firstn_all2; [reflexivity | |]; rewrite length_skipn; lia.
Qed.

Lemma pages_from_chunks (fuel : nat) :
  forall (i : Z) (acc : list (list string)),
    (0 <= i)%Z -> (Z.max 0 (len - i) < Z.of_nat fuel)%Z ->
    exists ps,
      pages_from fuel mergedImages imagesPerPage i acc = Some (acc ++ ps) /\
      List.concat ps = skipn (Z.to_nat i) mergedImages /\
      chunked (Z.to_nat imagesPerPage) ps /\
      ((len <= i)%Z -> ps = []) /\
      Z.of_nat (List.length ps)
      = ((Z.max 0 (len - i) + imagesPerPage - 1) / imagesPerPage)%Z.
Proof.
  assert (Hlen : (0 <= len)%Z) by apply Nat2Z.is_nonneg.
  induction fuel as [| fuel IH]; intros i acc Hi Hfuel; [lia |].
  simpl. fold len.
  destruct (Z.ltb_spec i len) as [Hin | Hout].
  - destruct (IH (i + imagesPerPage)%Z
                 (acc ++ [slice mergedImages i (i + imagesPerPage)]))
      as (ps & Hrun & Hcat & Hchunk & Hnil & Hcount); [lia | lia |].
    rewrite slice_next in * by lia.
    set (p := firstn (Z.to_nat imagesPerPage) (skipn (Z.to_nat i) mergedImages)) in *.
    assert (Hp : List.length p
                 = Nat.min (Z.to_nat imagesPerPage) (List.length mergedImages - Z.to_nat i))
      by (unfold p; now rewrite length_firstn, length_skipn).
    exists (p :: ps). rewrite Hrun, <- app_assoc. split; [reflexivity |].
    split; [| split; [| split]].
    + simpl. rewrite Hcat. unfold p.
      replace (Z.to_nat (i + imagesPerPage))
        with (Z.to_nat imagesPerPage + Z.to_nat i)%nat by lia.
      rewrite <- skipn_skipn. apply firstn_skipn.
    + destruct ps as [| p' ps'].
      * apply chunked_last. unfold len in *. lia.
      * apply chunked_cons; [| discriminate | exact Hchunk].
        destruct (Z.le_gt_cases len (i + imagesPerPage)) as [Hend | Hmore];
          [specialize (Hnil Hend); discriminate |].
        unfold len in *. lia.
    + intros Hle. lia.
    + simpl List.length. rewrite Nat2Z.inj_succ, Hcount.
      destruct (Z.le_gt_cases len (i + imagesPerPage)) as [Hend | Hmore].
      * rewrite (Z.max_l 0) by lia. rewrite (Z.max_r 0 (len - i)) by lia.
        rewrite Z.div_small by lia.
        replace (len - i + imagesPerPage - 1)%Z
          with ((len - i - 1) + 1 * imagesPerPage)%Z by lia.
        rewrite Z.div_add by lia. rewrite Z.div_small by lia. reflexivity.
      * rewrite !Z.max_r by lia.
        replace (len - i + imagesPerPage - 1)%Z
          with ((len - (i + imagesPerPage) + imagesPerPage - 1) + 1 * imagesPerPage)%Z
          by lia.
        rewrite Z.div_add by lia. lia.
  - exists []. rewrite app_nil_r. split; [reflexivity |].
    split; [| split; [constructor | split; [reflexivity |]]].
    + simpl. symmetry. apply skipn_all2. unfold len in *. lia.
    + rewrite Z.max_l by lia. simpl. rewrite Z.div_small by lia. reflexivity.
Qed.

End Pagination.

(** C6.  For every integer [imagesPerPage >= 1] the partition
    loop terminates and yields consecutive chunks of the input, in order:
    every page but the last has [imagesPerPage] images and the last has
    between 1 and [imagesPerPage], so there are
    [ceil(length / imagesPerPage)] pages.  With 4 per page both the screen
    grid and the PDF grid have 2 columns (and 2 rows), and the page is
    landscape. *)
Theorem pages_are_consecutive_chunks
    (mergedImages : list string) (imagesPerPage : Z) :
  (1 <= imagesPerPage)%Z ->
  (exists ps,
     PrintLayout.pages (S (List.length mergedImages)) mergedImages imagesPerPage
     = Some ps /\
     (forall fuel ps',
        PrintLayout.pages fuel mergedImages imagesPerPage = Some ps' -> ps' = ps) /\
     List.concat ps = mergedImages /\
     chunked (Z.to_nat imagesPerPage) ps /\
     Z.of_nat (List.length ps)
     = ((Z.of_nat (List.length mergedImages) + imagesPerPage - 1) / imagesPerPage)%Z) /\
  PrintLayout.getGridClass 4 = "grid-cols-2" /\
  PrintLayout.cols (PrintLayout.downloadPageAsPDF_layout 4) = 2%Z /\
  PrintLayout.rows (PrintLayout.downloadPageAsPDF_layout 4) = 2%Z /\
  PrintLayout.cols (PrintLayout.downloadAllAsPDF_layout 4) = 2%Z /\
  PrintLayout.rows (PrintLayout.downloadAllAsPDF_layout 4) = 2%Z /\
  PrintLayout.getOrientation 4 = PrintLayout.landscape.
Proof.
  intros Hpos. split; [| repeat split; reflexivity].
  destruct (pages_from_chunks mergedImages imagesPerPage Hpos
              (S (List.length mergedImages)) 0 [])
    as (ps & Hrun & Hcat & Hchunk & _ & Hcount); [lia | lia |].
  simpl app in Hrun. simpl skipn in Hcat.
  exists ps. split; [exact Hrun |].
  split; [| split; [exact Hcat | split; [exact Hchunk |]]].
  - intros fuel ps' Hrun'. unfold PrintLayout.pages in Hrun'.
    exact (pages_from_deterministic mergedImages imagesPerPage _ _ _ _ _ _ Hrun' Hrun).
  - rewrite Hcount. rewrite Z.sub_0_r. rewrite Z.max_r by lia. reflexivity.
Qed.

(** Ten images at four per page: three pages of 4, 4 and 2 images. *)
Lemma pages_are_consecutive_chunks_example :
  let ten := ["a"; "b"; "c"; "d"; "e"; "f"; "g"; "h"; "i"; "j"] in
  exists ps,
    PrintLayout.pages 11 ten 4 = Some ps /\
    ps = [["a"; "b"; "c"; "d"]; ["e"; "f"; "g"; "h"]; ["i"; "j"]] /\
    map (@List.length string) ps = [4; 4; 2]%nat /\
    List.concat ps = ten /\
    chunked 4 ps /\
    PrintLayout.getGridClass 4 = "grid-cols-2" /\
    PrintLayout.cols (PrintLayout.downloadPageAsPDF_layout 4) = 2%Z /\
    PrintLayout.rows (PrintLayout.downloadPageAsPDF_layout 4) = 2%Z /\
    PrintLayout.getOrientation 4 = PrintLayout.landscape.
Proof.
  intros ten.
  assert (Hpos : (1 <= 4)%Z) by (intro Hgt; discriminate Hgt).
  destruct (pages_are_consecutive_chunks ten 4 Hpos)
    as ((ps & Hrun & _ & Hcat & Hchunk & _) & Hgrid & Hcols & Hrows & _ & _ & Hland).
  exists ps. split; [exact Hrun |].
  assert (Hps : ps = [["a"; "b"; "c"; "d"]; ["e"; "f"; "g"; "h"]; ["i"; "j"]]).
  { vm_compute in Hrun. injection Hrun as <-. reflexivity. }
  split; [exact Hps |].
  split; [rewrite Hps; reflexivity |].
  split; [exact Hcat |].
  split; [exact Hchunk |].
  split; [exact Hgrid |]. split; [exact Hcols |]. split; [exact Hrows | exact Hland].
Defined.

(** ** The two PDF exports *)

Section Exports.

Import PrintLayout.

Variable loadImage : string -> option Image.

Lemma layouts_agree (imagesPerPage : Z) :
  downloadPageAsPDF_layout imagesPerPage = downloadAllAsPDF_layout imagesPerPage.
Proof.
  reflexivity.
Qed.

(** The per-page loop and the inner loop of the whole-document export make
    the same [addImage] calls. *)
Lemma loops_agree (L : Layout) (pageImages : list string) :
  forall i : Z,
    downloadPageAsPDF_loop loadImage L pageImages i
    = downloadAllAsPDF_images loadImage L pageImages i.
Proof.
  induction pageImages as [| pageImage rest IH]; intros i; simpl; [reflexivity |].
  destruct (loadImage pageImage) as [img |]; [| reflexivity].
  rewrite IH. reflexivity.
Qed.

Lemma placements_app (l l' : list PdfCall) :
  placements (l ++ l') = placements l ++ placements l'.
Proof.
  apply flat_map_app.
Qed.

(** Every image of a page that loads gets one placement. *)
Lemma images_count (L : Layout) (pageImages : list string) :
  forall (i : Z) (calls : list PdfCall),
    downloadAllAsPDF_images loadImage L pageImages i = Some calls ->
    List.length (placements calls) = List.length pageImages.
Proof.
  induction pageImages as [| pageImage rest IH]; intros i calls; simpl.
  - intros [= <-]. reflexivity.
  - destruct (loadImage pageImage) as [img |]; [| discriminate].
    destruct (downloadAllAsPDF_images loadImage L rest (i + 1)) as [more |] eqn:Hrest;
      [| destruct (gtb _ _); discriminate].
    destruct (gtb _ _); intros [= <-]; simpl; f_equal; exact (IH _ _ Hrest).
Qed.

(** In a document that was built, the placements of page [k] are those of
    its inner loop, after the placements of the images of the pages before
    it. *)
Lemma pages_segment (L : Layout) (pages : list (list string)) :
  forall (pageIdx : Z) (calls : list PdfCall),
    downloadAllAsPDF_pages loadImage L pages pageIdx = Some calls ->
    forall (k : nat) (pageImages : list string),
      nth_error pages k = Some pageImages ->
      exists pc before after,
        downloadAllAsPDF_images loadImage L pageImages 0 = Some pc /\
        placements calls = before ++ placements pc ++ after /\
        List.length before = List.length (List.concat (firstn k pages)).
Proof.
  induction pages as [| page rest IH]; intros pageIdx calls Hrun k pageImages Hk.
  - destruct k; discriminate.
  - simpl in Hrun.
    destruct (downloadAllAsPDF_images loadImage L page 0) as [pc0 |] eqn:Hpage;
      [| discriminate].
    destruct (downloadAllAsPDF_pages loadImage L rest (pageIdx + 1)) as [more |] eqn:Hrest;
      [| discriminate].
    injection Hrun as <-.
    assert (Hturn : placements
                      ((if (pageIdx >? 0)%Z then [addPage (orientation L)] else [])
                       ++ pc0 ++ more)
                    = placements pc0 ++ placements more).
    { rewrite !placements_app. destruct (pageIdx >? 0)%Z; reflexivity. }
    rewrite Hturn.
    destruct k as [| k].
    + injection Hk as <-. exists pc0, [], (placements more).
      split; [exact Hpage |]. split; reflexivity.
    + simpl in Hk.
      destruct (IH _ _ Hrest k pageImages Hk) as (pc & before & after & Hpc & Hseg & Hlen).
      exists pc, (placements pc0 ++ before), after.
      split; [exact Hpc |]. split.
      * rewrite Hseg, <- app_assoc. reflexivity.
      * simpl. rewrite !length_app, Hlen.
        rewrite (images_count L page 0 pc0 Hpage). reflexivity.
Qed.

Lemma pages_abort (L : Layout) (pages : list (list string)) :
  forall pageIdx : Z,
    downloadAllAsPDF_pages loadImage L pages pageIdx = None <->
    exists pageImages,
      In pageImages pages /\
      downloadAllAsPDF_images loadImage L pageImages 0 = None.
Proof.
  induction pages as [| page rest IH]; intros pageIdx; simpl.
  - split; [discriminate | intros (p & [] & _)].
  - destruct (downloadAllAsPDF_images loadImage L page 0) as [pc0 |] eqn:Hpage.
    + destruct (downloadAllAsPDF_pages loadImage L rest (pageIdx + 1)) as [more |] eqn:Hrest.
      * split; [discriminate |].
        intros (p & [<- | Hin] & Hp); [congruence |].
        assert (Hnone : downloadAllAsPDF_pages loadImage L rest (pageIdx + 1) = None)
          by (apply IH; exists p; split; assumption).
        congruence.
      * split; [intros _ | reflexivity].
        apply IH in Hrest. destruct Hrest as (p & Hin & Hp).
        exists p. split; [right; exact Hin | exact Hp].
    + split; [intros _ | reflexivity].
      exists page. split; [left; reflexivity | exact Hpage].
Qed.

End Exports.

(** C7.  The single-page export and the whole-document export compute the
    same layout (orientation, page size, padding, columns, rows and cell
    size) and, for every page, the same [addImage] placements, 0.99
    shrink included: in a document that was built, the placements of page
    [k] are exactly those the single-page export makes for that page, and
    they follow the placements of the pages before it.  The whole document
    is abandoned exactly when the single-page export of one of its pages
    is. *)
Theorem exports_place_images_alike
    (loadImage : string -> option Image) (imagesPerPage : Z)
    (pages : list (list string)) :
  PrintLayout.downloadPageAsPDF_layout imagesPerPage
  = PrintLayout.downloadAllAsPDF_layout imagesPerPage /\
  (forall (L : PrintLayout.Layout) (pageImages : list string) (i : Z),
     PrintLayout.downloadPageAsPDF_loop loadImage L pageImages i
     = PrintLayout.downloadAllAsPDF_images loadImage L pageImages i) /\
  (forall (all : list PrintLayout.PdfCall) (k : nat) (pageImages : list string),
     PrintLayout.downloadAllAsPDF loadImage imagesPerPage pages = Some all ->
     nth_error pages k = Some pageImages ->
     exists one before after,
       PrintLayout.downloadPageAsPDF loadImage imagesPerPage pageImages (Z.of_nat k)
       = Some one /\
       hd_error one = hd_error all /\
       placements all = before ++ placements one ++ after /\
       List.length before = List.length (List.concat (firstn k pages)) /\
       List.length (placements one) = List.length pageImages) /\
  (PrintLayout.downloadAllAsPDF loadImage imagesPerPage pages = None <->
   exists pageImages,
     In pageImages pages /\
     forall pageIndex : Z,
       PrintLayout.downloadPageAsPDF loadImage imagesPerPage pageImages pageIndex
       = None).
Proof.
  split; [apply layouts_agree |].
  split; [intros L pageImages i; apply loops_agree |].
  split.
  - intros all k pageImages Hall Hk.
    unfold PrintLayout.downloadAllAsPDF in Hall.
    destruct (PrintLayout.downloadAllAsPDF_pages loadImage _ pages 0)
      as [calls |] eqn:Hpages; [| discriminate].
    injection Hall as <-.
    destruct (pages_segment loadImage _ pages 0 calls Hpages k pageImages Hk)
      as (pc & before & after & Hpc & Hseg & Hlen).
    unfold PrintLayout.downloadPageAsPDF.
    rewrite loops_agree, layouts_agree, Hpc.
    eexists. exists before, after.
    split; [reflexivity |]. split; [reflexivity |].
    assert (Hwrap : forall (o : PrintLayout.Orientation) (l : list PrintLayout.PdfCall)
                           (name : PrintLayout.FileName),
               placements (PrintLayout.new_jsPDF o :: l ++ [PrintLayout.save name])
               = placements l).
    { intros o l name. change (PrintLayout.new_jsPDF o :: l ++ [PrintLayout.save name])
        with ([PrintLayout.new_jsPDF o] ++ l ++ [PrintLayout.save name]).
      rewrite !placements_app. simpl. apply app_nil_r. }
    rewrite !Hwrap. split; [exact Hseg |]. split; [exact Hlen |].
    exact (images_count loadImage _ pageImages 0 pc Hpc).
  - unfold PrintLayout.downloadAllAsPDF, PrintLayout.downloadPageAsPDF.
    change (PrintLayout.downloadPageAsPDF_layout imagesPerPage)
      with (PrintLayout.downloadAllAsPDF_layout imagesPerPage).
    destruct (PrintLayout.downloadAllAsPDF_pages loadImage _ pages 0)
      as [calls |] eqn:Hpages.
    + split; [discriminate |].
      intros (p & Hin & Hp). specialize (Hp 0%Z). rewrite loops_agree in Hp.
      destruct (PrintLayout.downloadAllAsPDF_images loadImage _ p 0) as [pc |] eqn:Hpc;
        [discriminate |].
      assert (Hnone : PrintLayout.downloadAllAsPDF_pages loadImage
                        (PrintLayout.downloadAllAsPDF_layout imagesPerPage) pages 0 = None)
        by (apply pages_abort; exists p; split; assumption).
      congruence.
    + split; [intros _ | reflexivity].
      apply pages_abort in Hpages. destruct Hpages as (p & Hin & Hp).
      exists p. split; [exact Hin |]. intros pageIndex.
      rewrite loops_agree, Hp. reflexivity.
Qed.

(** ** Rectangle export and import *)

Section ConfigFile.

Import SettingsModal.

Variable Text : Type.
Variable stringify : JSON -> Text.
Variable parse : Text -> option JSON.

Lemma areaConfig_or_data_not_null (data config : JSON) :
  areaConfig_or_data data = Some config -> config <> JNull.
Proof.
  unfold areaConfig_or_data.
  destruct data; simpl; try (intros [= <-]; discriminate); try discriminate.
  destruct (lookup "areaConfig" fields) as [v |]; [| intros [= <-]; discriminate].
  destruct (truthy v) eqn:Hv; intros [= <-]; [| discriminate].
  intros ->. discriminate.
Qed.

Lemma get_not_null (config : JSON) (key : string) :
  config <> JNull -> get config key <> TypeError.
Proof.
  destruct config; simpl; try discriminate; [contradiction |].
  intros _. destruct (lookup key fields); discriminate.
Qed.

Lemma typeof_number_spec (p : Property) :
  typeof_number p = true <-> exists n, p = value (JNumber n).
Proof.
  destruct p as [| | v]; simpl; try (split; [discriminate | intros (n & [=])]).
  destruct v; simpl; try (split; [discriminate | intros (k & [=])]).
  split; [intros _; now exists n | reflexivity].
Qed.

(** A file whose selected object has four numeric fields is accepted. *)
Lemma import_accepts (text : Text) (st : State) (data config : JSON) (a : AreaConfig) :
  parse text = Some data ->
  areaConfig_or_data data = Some config ->
  numeric_fields config a ->
  handleImportConfig parse text st
  = (setSaveSuccess false (setAreaConfig (Some a) st), None).
Proof.
  intros Hparse Hcfg (Hx & Hy & Hw & Hh).
  unfold handleImportConfig, asAreaConfig.
  rewrite Hparse, Hcfg, Hx, Hy, Hw, Hh. simpl. destruct a; reflexivity.
Qed.

(** A file whose selected object lacks a numeric field is refused and
    leaves the state as it was. *)
Lemma import_refuses (text : Text) (st : State) (data config : JSON) :
  parse text = Some data ->
  areaConfig_or_data data = Some config ->
  (forall a, ~ numeric_fields config a) ->
  handleImportConfig parse text st = (st, Some Format_file_tidak_valid).
Proof.
  intros Hparse Hcfg Hnone.
  unfold handleImportConfig. rewrite Hparse, Hcfg.
  pose proof (get_not_null config "x" (areaConfig_or_data_not_null _ _ Hcfg)) as Hnn.
  destruct (typeof_number (get config "x") && typeof_number (get config "y")
            && typeof_number (get config "width")
            && typeof_number (get config "height")) eqn:Hall.
  - exfalso.
    apply andb_true_iff in Hall. destruct Hall as (Hall & Hh).
    apply andb_true_iff in Hall. destruct Hall as (Hall & Hw).
    apply andb_true_iff in Hall. destruct Hall as (Hx & Hy).
    apply typeof_number_spec in Hx, Hy, Hw, Hh.
    destruct Hx as (cx & Hx). destruct Hy as (cy & Hy).
    destruct Hw as (cw & Hw). destruct Hh as (ch & Hh).
    apply (Hnone (mkArea cx cy cw ch)). repeat split; assumption.
  - destruct (get config "x"); [contradiction | reflexivity | reflexivity].
Qed.

Lemma exported_config (a : AreaConfig) (now : string) :
  areaConfig_or_data (exportData a now) = Some (toJSON a) /\
  numeric_fields (toJSON a) a.
Proof.
  split; [reflexivity | repeat split; reflexivity].
Qed.

End ConfigFile.

(** C9.  If the dialog holds a frame and a rectangle, exporting writes a
    file, and importing that file sets the dialog's rectangle to the very
    same [x], [y], [width] and [height]: the code wraps the rectangle
    under [areaConfig] and unwraps it again without touching the numbers.
    [JSON.stringify] and [JSON.parse] are the platform's; they are taken
    to give back the exported document. *)
Theorem export_import_round_trip
    (Text : Type) (stringify : SettingsModal.JSON -> Text)
    (parse : Text -> option SettingsModal.JSON)
    (a : AreaConfig) (now : string) (st st' : SettingsModal.State) :
  parse (stringify (SettingsModal.exportData a now))
  = Some (SettingsModal.exportData a now) ->
  SettingsModal.areaConfig st = Some a ->
  SettingsModal.no_frame (SettingsModal.frameImage st) = false ->
  exists text,
    SettingsModal.handleExportConfig stringify now st = Some text /\
    SettingsModal.handleImportConfig parse text st'
    = (SettingsModal.setSaveSuccess false
         (SettingsModal.setAreaConfig (Some a) st'), None) /\
    SettingsModal.areaConfig
      (fst (SettingsModal.handleImportConfig parse text st')) = Some a.
Proof.
  intros Hcodec Harea Hframe.
  exists (stringify (SettingsModal.exportData a now)).
  unfold SettingsModal.handleExportConfig. rewrite Harea, Hframe.
  split; [reflexivity |].
  destruct (exported_config a now) as (Hcfg & Hnum).
  rewrite (import_accepts Text parse _ st' _ _ a Hcodec Hcfg Hnum).
  split; reflexivity.
Qed.

(** A rectangle with fractional fields, exported and imported through a
    codec that hands the document over unchanged. *)
Lemma export_import_round_trip_example :
  let a := mkArea (123 # 10) (7 # 3) (401 # 8) 33 in
  let st := SettingsModal.mkState (Some "frame.png") (Some a) true in
  let st' := SettingsModal.mkState (Some "other.png") None true in
  exists text,
    SettingsModal.handleExportConfig (fun doc => doc) "2024-01-01T00:00:00.000Z" st
    = Some text /\
    SettingsModal.areaConfig
      (fst (SettingsModal.handleImportConfig (fun doc => Some doc) text st'))
    = Some a.
Proof.
  intros a st st'.
  destruct (export_import_round_trip SettingsModal.JSON (fun doc => doc)
              (fun doc => Some doc) a "2024-01-01T00:00:00.000Z" st st'
              eq_refl eq_refl eq_refl)
    as (text & Hexport & _ & Himport).
  exists text. split; [exact Hexport | exact Himport].
Defined.

(** C10.  The import accepts the object it selects ([data.areaConfig] if
    truthy, else [data]) and stores it as the rectangle exactly when its
    [x], [y], [width] and [height] are all numbers; otherwise it reports
    an invalid format and changes nothing.  The numbers are not checked
    against any range: a file with [x = -50] and [width = 500] is
    accepted and the stored rectangle violates the Rectangle invariants. *)
Theorem import_checks_types_only
    (Text : Type) (parse : Text -> option SettingsModal.JSON)
    (text : Text) (st : SettingsModal.State)
    (data config : SettingsModal.JSON) :
  parse text = Some data ->
  SettingsModal.areaConfig_or_data data = Some config ->
  ((exists a, numeric_fields config a) <->
   exists a,
     SettingsModal.handleImportConfig parse text st
     = (SettingsModal.setSaveSuccess false
          (SettingsModal.setAreaConfig (Some a) st), None)) /\
  (forall a, numeric_fields config a ->
     SettingsModal.areaConfig
       (fst (SettingsModal.handleImportConfig parse text st)) = Some a) /\
  ((forall a, ~ numeric_fields config a) ->
     SettingsModal.handleImportConfig parse text st
     = (st, Some SettingsModal.Format_file_tidak_valid)) /\
  (let bad := mkArea (-50) 0 500 10 in
   ~ rect_invariants bad /\
   forall text' st',
     parse text' = Some (SettingsModal.toJSON bad) ->
     SettingsModal.areaConfig
       (fst (SettingsModal.handleImportConfig parse text' st')) = Some bad).
Proof.
  intros Hparse Hcfg.
  split; [| split; [| split]].
  - split.
    + intros (a & Ha). exists a. exact (import_accepts Text parse text st data config a Hparse Hcfg Ha).
    + intros (a & Hrun).
      destruct (SettingsModal.typeof_number (SettingsModal.get config "x")) eqn:Hx;
        [destruct (SettingsModal.typeof_number (SettingsModal.get config "y")) eqn:Hy;
         [destruct (SettingsModal.typeof_number (SettingsModal.get config "width")) eqn:Hw;
          [destruct (SettingsModal.typeof_number (SettingsModal.get config "height")) eqn:Hh |] |] |].
      * apply typeof_number_spec in Hx, Hy, Hw, Hh.
        destruct Hx as (cx & Hx). destruct Hy as (cy & Hy).
        destruct Hw as (cw & Hw). destruct Hh as (ch & Hh).
        exists (mkArea cx cy cw ch). repeat split; assumption.
      * exfalso. unfold SettingsModal.handleImportConfig in Hrun.
        rewrite Hparse, Hcfg, Hx, Hy, Hw, Hh in Hrun.
        destruct (SettingsModal.get config "x"); discriminate.
      * exfalso. unfold SettingsModal.handleImportConfig in Hrun.
        rewrite Hparse, Hcfg, Hx, Hy, Hw in Hrun.
        destruct (SettingsModal.get config "x"); discriminate.
      * exfalso. unfold SettingsModal.handleImportConfig in Hrun.
        rewrite Hparse, Hcfg, Hx, Hy in Hrun.
        destruct (SettingsModal.get config "x"); discriminate.
      * exfalso. unfold SettingsModal.handleImportConfig in Hrun.
        rewrite Hparse, Hcfg, Hx in Hrun.
        destruct (SettingsModal.get config "x"); discriminate.
  - intros a Ha.
    rewrite (import_accepts Text parse text st data config a Hparse Hcfg Ha). reflexivity.
  - exact (import_refuses Text parse text st data config Hparse Hcfg).
  - cbv zeta. split.
    + intros ((H0 & _) & _). apply H0. reflexivity.
    + intros text' st' Hparse'.
      destruct (exported_config (mkArea (-50) 0 500 10) "") as (_ & Hnum).
      rewrite (import_accepts Text parse text' st' _ _ _ Hparse' eq_refl Hnum).
      reflexivity.
Qed.

(** The file [{ "x": -50, "y": 0, "width": 500, "height": 10 }] is
    accepted, and the rectangle it stores is out of range. *)
Lemma import_checks_types_only_example :
  let bad := mkArea (-50) 0 500 10 in
  let st := SettingsModal.mkState (Some "frame.png") None true in
  SettingsModal.handleImportConfig (fun doc => Some doc) (SettingsModal.toJSON bad) st
  = (SettingsModal.mkState (Some "frame.png") (Some bad) false, None) /\
  ~ rect_invariants bad.
Proof.
  intros bad st.
  destruct (import_checks_types_only SettingsModal.JSON (fun doc => Some doc)
              (SettingsModal.toJSON bad) st (SettingsModal.toJSON bad)
              (SettingsModal.toJSON bad) eq_refl eq_refl)
    as (_ & _ & _ & Hbad & _).
  split; [reflexivity | exact Hbad].
Defined.


(** * Further properties of the components *)

(** ** Pointer handling in the rectangle editor *)

Section Pointer.

Import AreaSelector.

Lemma near_test (pos : Pos) (cx cy : Q) :
  ltb (Math.abs (pos_x pos - cx)) 3 && ltb (Math.abs (pos_y pos - cy)) 3 = true
  <-> near pos cx cy.
Proof.
  unfold near, Math.abs. rewrite andb_true_iff, !ltb_true. reflexivity.
Qed.

Lemma inside_test (pos : Pos) (area : AreaConfig) :
  geb (pos_x pos) (x area) && leb (pos_x pos) (x area + width area)
  && geb (pos_y pos) (y area) && leb (pos_y pos) (y area + height area) = true
  <-> inside pos area.
Proof.
  unfold inside. rewrite !andb_true_iff, !geb_true, !leb_true. tauto.
Qed.

Lemma abs_diff_min_max (a b : Q) :
  Qmin a b + Qabs (b - a) == Qmax a b.
Proof.
  destruct (Q.min_spec a b) as [[Hlt Hmin] | [Hle Hmin]];
    destruct (Q.max_spec a b) as [[Hlt' Hmax] | [Hle' Hmax]];
    rewrite Hmin, Hmax; try lra.
  - rewrite Qabs_pos by lra. lra.
  - rewrite Qabs_neg by lra. lra.
Qed.

Lemma min_max_range (a b lo hi : Q) :
  lo <= a <= hi -> lo <= b <= hi ->
  lo <= Qmin a b /\ Qmax a b <= hi.
Proof.
  intros Ha Hb.
  destruct (Q.min_spec a b) as [[Hlt Hmin] | [Hle Hmin]];
    destruct (Q.max_spec a b) as [[Hlt' Hmax] | [Hle' Hmax]];
    rewrite Hmin, Hmax; split; lra.
Qed.

Lemma press_candidate_not_committable (down : MouseEvent) (c : Component) :
  tempArea c = None -> ~ committable (tempArea (handleMouseDown down c)).
Proof.
  intros Hidle (r & Hr & Hw & Hh). unfold handleMouseDown in Hr.
  destruct (areaConfig c) as [area |].
  - destruct (DragMode_eqb _ draw); cbn in Hr.
    + injection Hr as <-. cbn in Hw. lra.
    + congruence.
  - cbn in Hr. injection Hr as <-. cbn in Hw. lra.
Qed.

End Pointer.

(** X1.  For a container of positive width and height (or none mounted),
    the pointer position the handlers work with is a pair of percentages
    between 0 and 100, whatever the event; without a mounted container it
    is (0, 0). *)
Theorem pointer_position_is_a_percentage
    (c : AreaSelector.Component) (e : AreaSelector.MouseEvent) :
  container_has_size c ->
  let pos := AreaSelector.getRelativePosition c e in
  0 <= AreaSelector.pos_x pos <= 100 /\
  0 <= AreaSelector.pos_y pos <= 100 /\
  (AreaSelector.containerRef c = None -> pos = AreaSelector.mkPos 0 0).
Proof.
  intros _. cbv zeta. destruct (getRelativePosition_range c e) as (Hx & Hy).
  split; [exact Hx |]. split; [exact Hy |].
  intros Hnone. unfold AreaSelector.getRelativePosition. rewrite Hnone. reflexivity.
Qed.

(** A pointer far to the right of and above a 200 x 50 container. *)
Lemma pointer_position_is_a_percentage_example :
  let c :=
    AreaSelector.mkComponent (Some (AreaSelector.mkDOMRect 10 20 200 50))
      None [] AreaSelector.none None None None in
  let pos := AreaSelector.getRelativePosition c (AreaSelector.mkEvent 500 0) in
  0 <= AreaSelector.pos_x pos <= 100 /\ 0 <= AreaSelector.pos_y pos <= 100.
Proof.
  intros c pos.
  assert (Hsize : container_has_size c).
  { intros rect [= <-]. split; reflexivity. }
  destruct (pointer_position_is_a_percentage c (AreaSelector.mkEvent 500 0) Hsize)
    as (Hx & Hy & _).
  split; [exact Hx | exact Hy].
Defined.

(** X2.  The hit test of a press: a handle wins when the pointer is within
    3 percentage points of its corner on both axes, the corners being
    tried in the order top-left, top-right, bottom-left, bottom-right;
    otherwise the press moves the rectangle when it lands on it (border
    included) and starts a new drawing when it does not.  The result is
    never ['none']. *)
Theorem hit_test_priorities (pos : AreaSelector.Pos) (area : AreaConfig) :
  let tl := near pos (x area) (y area) in
  let tr := near pos (x area + width area) (y area) in
  let bl := near pos (x area) (y area + height area) in
  let br := near pos (x area + width area) (y area + height area) in
  match AreaSelector.getCornerAtPosition pos area with
  | AreaSelector.resize_tl => tl
  | AreaSelector.resize_tr => ~ tl /\ tr
  | AreaSelector.resize_bl => ~ tl /\ ~ tr /\ bl
  | AreaSelector.resize_br => ~ tl /\ ~ tr /\ ~ bl /\ br
  | AreaSelector.move => ~ tl /\ ~ tr /\ ~ bl /\ ~ br /\ inside pos area
  | AreaSelector.draw => ~ tl /\ ~ tr /\ ~ bl /\ ~ br /\ ~ inside pos area
  | AreaSelector.none => False
  end.
Proof.
  cbv zeta. unfold AreaSelector.getCornerAtPosition. cbn [find].
  pose proof (near_test pos (x area) (y area)) as Htl.
  pose proof (near_test pos (x area + width area) (y area)) as Htr.
  pose proof (near_test pos (x area) (y area + height area)) as Hbl.
  pose proof (near_test pos (x area + width area) (y area + height area)) as Hbr.
  pose proof (inside_test pos area) as Hin.
  destruct (ltb (Math.abs (AreaSelector.pos_x pos - x area)) 3
            && ltb (Math.abs (AreaSelector.pos_y pos - y area)) 3);
    [apply Htl; reflexivity |].
  assert (Hntl : ~ near pos (x area) (y area))
    by (intros Hn; apply Htl in Hn; discriminate).
  destruct (ltb (Math.abs (AreaSelector.pos_x pos - (x area + width area))) 3
            && ltb (Math.abs (AreaSelector.pos_y pos - y area)) 3);
    [split; [exact Hntl | apply Htr; reflexivity] |].
  assert (Hntr : ~ near pos (x area + width area) (y area))
    by (intros Hn; apply Htr in Hn; discriminate).
  destruct (ltb (Math.abs (AreaSelector.pos_x pos - x area)) 3
            && ltb (Math.abs (AreaSelector.pos_y pos - (y area + height area))) 3);
    [repeat split; [exact Hntl | exact Hntr | apply Hbl; reflexivity ..] |].
  assert (Hnbl : ~ near pos (x area) (y area + height area))
    by (intros Hn; apply Hbl in Hn; discriminate).
  destruct (ltb (Math.abs (AreaSelector.pos_x pos - (x area + width area))) 3
            && ltb (Math.abs (AreaSelector.pos_y pos - (y area + height area))) 3);
    [split; [exact Hntl |]; split; [exact Hntr |]; split; [exact Hnbl |];
     apply Hbr; reflexivity |].
  assert (Hnbr : ~ near pos (x area + width area) (y area + height area))
    by (intros Hn; apply Hbr in Hn; discriminate).
  destruct (geb _ _ && leb _ _ && geb _ _ && leb _ _).
  - split; [exact Hntl |]; split; [exact Hntr |]; split; [exact Hnbl |];
      split; [exact Hnbr |]. apply Hin. reflexivity.
  - split; [exact Hntl |]; split; [exact Hntr |]; split; [exact Hnbl |];
      split; [exact Hnbr |]. intros Hn. apply Hin in Hn. discriminate.
Qed.

(** X3.  A press that is released without any pointer move changes
    nothing that is persisted, wherever it lands: the rectangle is kept,
    [onAreaChange] is not called, and the editor is idle again. *)
Theorem click_without_drag_changes_nothing
    (c : AreaSelector.Component) (down : AreaSelector.MouseEvent) :
  AreaSelector.tempArea c = None ->
  let c' := AreaSelector.gesture down [] c in
  AreaSelector.areaConfig c' = AreaSelector.areaConfig c /\
  AreaSelector.areaChanged c' = AreaSelector.areaChanged c /\
  AreaSelector.dragMode c' = AreaSelector.none /\
  AreaSelector.tempArea c' = None.
Proof.
  intros Hidle. cbv zeta. unfold AreaSelector.gesture. cbn [fold_left].
  destruct (handleMouseUp_discard (AreaSelector.handleMouseDown down c)
              (press_candidate_not_committable down c Hidle)) as (Hcfg & Hlog).
  destruct (handleMouseDown_persisted down c) as (Hcfg0 & Hlog0).
  rewrite Hcfg, Hlog, Hcfg0, Hlog0. repeat split; reflexivity.
Qed.

(** A click on an existing rectangle and a click beside it. *)
Lemma click_without_drag_example :
  let c :=
    AreaSelector.mkComponent (Some (AreaSelector.mkDOMRect 0 0 100 100))
      (Some (mkArea 10 10 40 40)) [] AreaSelector.none None None None in
  AreaSelector.areaConfig (AreaSelector.gesture (AreaSelector.mkEvent 30 30) [] c)
  = Some (mkArea 10 10 40 40) /\
  AreaSelector.areaConfig (AreaSelector.gesture (AreaSelector.mkEvent 90 90) [] c)
  = Some (mkArea 10 10 40 40).
Proof.
  intros c. split.
  - exact (proj1 (click_without_drag_changes_nothing c (AreaSelector.mkEvent 30 30) eq_refl)).
  - exact (proj1 (click_without_drag_changes_nothing c (AreaSelector.mkEvent 90 90) eq_refl)).
Defined.



(** X5.  With a container of positive size and the anchor a pointer
    position (between 0 and 100 on both axes): while drawing, the
    candidate has the smaller of the anchor's and the pointer's
    coordinates as its left and top edge and their distances as its width
    and height, and it satisfies the rectangle invariants. *)
Theorem draw_spans_anchor_and_pointer
    (c : AreaSelector.Component) (e : AreaSelector.MouseEvent)
    (start : AreaSelector.Pos) :
  container_has_size c ->
  AreaSelector.dragMode c = AreaSelector.draw ->
  AreaSelector.dragStart c = Some start ->
  0 <= AreaSelector.pos_x start <= 100 ->
  0 <= AreaSelector.pos_y start <= 100 ->
  let pos := AreaSelector.getRelativePosition c e in
  exists r,
    AreaSelector.tempArea (AreaSelector.handleMouseMove e c) = Some r /\
    x r == Qmin (AreaSelector.pos_x start) (AreaSelector.pos_x pos) /\
    y r == Qmin (AreaSelector.pos_y start) (AreaSelector.pos_y pos) /\
    width r == Qabs (AreaSelector.pos_x pos - AreaSelector.pos_x start) /\
    height r == Qabs (AreaSelector.pos_y pos - AreaSelector.pos_y start) /\
    rect_invariants r.
Proof.
  intros _ Hmode Hstart Hsx Hsy pos.
  destruct (getRelativePosition_range c e) as (Hpx & Hpy). fold pos in Hpx, Hpy.
  unfold AreaSelector.handleMouseMove. rewrite Hmode, Hstart.
  cbn [AreaSelector.setTempArea AreaSelector.tempArea]. fold pos.
  eexists. split; [reflexivity |]. cbn [x y width height]. unfold Math.min, Math.abs.
  pose proof (abs_diff_min_max (AreaSelector.pos_x start) (AreaSelector.pos_x pos)) as Hx.
  pose proof (abs_diff_min_max (AreaSelector.pos_y start) (AreaSelector.pos_y pos)) as Hy.
  destruct (min_max_range _ _ 0 100 Hsx Hpx) as (Hx0 & Hx1).
  destruct (min_max_range _ _ 0 100 Hsy Hpy) as (Hy0 & Hy1).
  pose proof (Qabs_nonneg (AreaSelector.pos_x pos - AreaSelector.pos_x start)) as Hwn.
  pose proof (Qabs_nonneg (AreaSelector.pos_y pos - AreaSelector.pos_y start)) as Hhn.
  split; [reflexivity |]. split; [reflexivity |].
  split; [reflexivity |]. split; [reflexivity |].
  unfold rect_invariants, in_bounds. cbn [x y width height].
  repeat split; lra.
Qed.

(** Drawing from (60, 40) up and to the left to (10, 10). *)
Lemma draw_spans_anchor_and_pointer_example :
  let c0 :=
    AreaSelector.mkComponent (Some (AreaSelector.mkDOMRect 0 0 100 100))
      None [] AreaSelector.none None None None in
  let c := AreaSelector.handleMouseDown (AreaSelector.mkEvent 60 40) c0 in
  exists r,
    AreaSelector.tempArea
      (AreaSelector.handleMouseMove (AreaSelector.mkEvent 10 10) c) = Some r /\
    area_eq r (mkArea 10 10 50 30) /\ rect_invariants r.
Proof.
  intros c0 c.
  assert (Hsize : container_has_size c).
  { intros rect [= <-]. split; reflexivity. }
  assert (Hsx : 0 <= AreaSelector.pos_x
                       (AreaSelector.getRelativePosition c0 (AreaSelector.mkEvent 60 40))
                <= 100)
    by (split; intro Hgt; discriminate Hgt).
  assert (Hsy : 0 <= AreaSelector.pos_y
                       (AreaSelector.getRelativePosition c0 (AreaSelector.mkEvent 60 40))
                <= 100)
    by (split; intro Hgt; discriminate Hgt).
  destruct (draw_spans_anchor_and_pointer c (AreaSelector.mkEvent 10 10)
              (AreaSelector.getRelativePosition c0 (AreaSelector.mkEvent 60 40))
              Hsize eq_refl eq_refl Hsx Hsy)
    as (r & Hr & _ & _ & _ & _ & Hinv).
  exists r. split; [exact Hr |]. split; [| exact Hinv].
  vm_compute in Hr. injection Hr as <-. repeat split; reflexivity.
Defined.

(** X6.  With a container of positive size a resize is never discarded:
    after any pointer move in a resize mode the candidate is at least 2
    wide and 2 high with its top-left corner at or after the origin, so
    the release commits it and reports it through [onAreaChange]. *)
Theorem resize_is_always_committed
    (c : AreaSelector.Component) (e : AreaSelector.MouseEvent)
    (start : AreaSelector.Pos) (orig : AreaConfig) :
  container_has_size c ->
  AreaSelector.startsWith_resize (AreaSelector.dragMode c) = true ->
  AreaSelector.dragStart c = Some start ->
  AreaSelector.originalArea c = Some orig ->
  let c' := AreaSelector.handleMouseMove e c in
  exists r,
    AreaSelector.tempArea c' = Some r /\
    0 <= x r /\ 0 <= y r /\ 2 <= width r /\ 2 <= height r /\
    AreaSelector.areaConfig (AreaSelector.handleMouseUp c') = Some r /\
    AreaSelector.areaChanged (AreaSelector.handleMouseUp c')
    = AreaSelector.areaChanged c ++ [Some r].
Proof.
  intros _ Hmode Hstart Horig c'.
  set (r := AreaSelector.resize (AreaSelector.dragMode c) orig start
              (AreaSelector.getRelativePosition c e)).
  assert (Hr : AreaSelector.tempArea c' = Some r).
  { unfold c', AreaSelector.handleMouseMove. rewrite Hstart, Horig.
    destruct (AreaSelector.dragMode c); try discriminate; reflexivity. }
  destruct (resize_lower_bounds (AreaSelector.dragMode c) orig start
              (AreaSelector.getRelativePosition c e)) as (Hx & Hy & Hw & Hh).
  fold r in Hx, Hy, Hw, Hh.
  destruct (handleMouseMove_persisted e c) as (_ & Hlog & Hsame). fold c' in Hlog, Hsame.
  assert (Hactive : AreaSelector.dragMode c' <> AreaSelector.none).
  { rewrite Hsame. intros Hnone. rewrite Hnone in Hmode. discriminate. }
  destruct (handleMouseUp_commit c' r Hactive Hr) as (Hcfg & Hcall); [lra | lra |].
  exists r. rewrite Hcfg, Hcall, Hlog. repeat split; assumption.
Qed.

(** Collapsing a rectangle onto its bottom-right corner still commits a
    2 x 2 rectangle. *)
Lemma resize_is_always_committed_example :
  let c0 :=
    AreaSelector.mkComponent (Some (AreaSelector.mkDOMRect 0 0 100 100))
      (Some (mkArea 10 10 40 40)) [] AreaSelector.none None None None in
  let c := AreaSelector.handleMouseDown (AreaSelector.mkEvent 10 10) c0 in
  let c' := AreaSelector.handleMouseMove (AreaSelector.mkEvent 50 50) c in
  exists r,
    AreaSelector.areaConfig (AreaSelector.handleMouseUp c') = Some r /\
    2 <= width r /\ 2 <= height r.
Proof.
  intros c0 c c'.
  assert (Hsize : container_has_size c).
  { intros rect [= <-]. split; reflexivity. }
  destruct (resize_is_always_committed c (AreaSelector.mkEvent 50 50)
              (AreaSelector.getRelativePosition c0 (AreaSelector.mkEvent 10 10))
              (mkArea 10 10 40 40) Hsize eq_refl eq_refl eq_refl)
    as (r & _ & _ & _ & Hw & Hh & Hcfg & _).
  exists r. split; [exact Hcfg |]. split; [exact Hw | exact Hh].
Defined.

(** X7.  The rectangle a resize step computes lies inside the frame
    exactly when its width and height are at most 100: the re-clamp
    repairs the position but not the size. *)
Theorem resize_in_bounds_iff_size_fits
    (mode : AreaSelector.DragMode) (orig : AreaConfig)
    (start pos : AreaSelector.Pos) :
  let r := AreaSelector.resize mode orig start pos in
  in_bounds r <-> (width r <= 100 /\ height r <= 100).
Proof.
  cbv zeta.
  destruct (resize_lower_bounds mode orig start pos) as (Hx & Hy & _ & _).
  split.
  - intros (_ & _ & Hr & Hb). split; lra.
  - intros (Hw & Hh). exact (resize_fits_when_size_fits mode orig start pos Hw Hh).
Qed.



(** ** Placement in the image merger *)

Section Placement.

Import ImageMerger.

Lemma gtb_compat (a a' b : Q) : a == a' -> gtb a b = gtb a' b.
Proof.
  intros Heq. unfold gtb. now rewrite Heq.
Qed.

End Placement.

(** X9.  The placement of a source depends on its size only through its
    aspect ratio: two sources with the same ratio of width to height are
    drawn at the same position and size. *)
Theorem fit_depends_on_aspect_only (t : AreaConfig) (s s' : Image) :
  img_width s / img_height s == img_width s' / img_height s' ->
  draw_eq (ImageMerger.fit t s) (ImageMerger.fit t s').
Proof.
  intros Haspect. unfold ImageMerger.fit.
  rewrite (gtb_compat _ _ (width t / height t) Haspect).
  destruct (gtb (img_width s' / img_height s') (width t / height t));
    unfold draw_eq; cbn [ImageMerger.drawX ImageMerger.drawY
                           ImageMerger.drawWidth ImageMerger.drawHeight];
    rewrite Haspect; repeat split; reflexivity.
Qed.

(** A 200 x 100 source and a 400 x 200 source are placed alike. *)
Lemma fit_depends_on_aspect_only_example :
  draw_eq (ImageMerger.fit (mkArea 100 100 100 200) (mkImage 200 100))
          (ImageMerger.fit (mkArea 100 100 100 200) (mkImage 400 200)).
Proof.
  apply (fit_depends_on_aspect_only (mkArea 100 100 100 200)
           (mkImage 200 100) (mkImage 400 200)).
  reflexivity.
Defined.



(** ** Pages, grid and PDF placement *)

Section Grid.

Import PrintLayout.

Lemma floor_of_quotient (n c : Z) :
  Math.floor (inject_Z n / inject_Z c) = (n / c)%Z.
Proof.
  unfold Math.floor. symmetry. apply Zdiv_Qdiv.
Qed.

Lemma ceil_of_quotient (n c : Z) :
  (0 < c)%Z -> Math.ceil (inject_Z n / inject_Z c) = (- ((- n) / c))%Z.
Proof.
  intros Hc. unfold Math.ceil, Qceiling. f_equal.
  rewrite (Zdiv_Qdiv (- n) c). apply Qfloor_comp.
  rewrite inject_Z_opp. field.
  intros H0. apply (inject_Z_injective c 0) in H0. lia.
Qed.

Variable imagesPerPage : Z.
Hypothesis positive : (1 <= imagesPerPage)%Z.

Let L := downloadPageAsPDF_layout imagesPerPage.

Lemma layout_cols : (1 <= cols L <= 3)%Z.
Proof.
  unfold L, downloadPageAsPDF_layout. cbn [cols].
  destruct (imagesPerPage =? 1)%Z; [lia |].
  destruct (imagesPerPage =? 2)%Z; [lia |].
  destruct (imagesPerPage =? 4)%Z; lia.
Qed.

Lemma layout_rows :
  rows L = (- ((- imagesPerPage) / cols L))%Z.
Proof.
  pose proof layout_cols as Hc.
  unfold L, downloadPageAsPDF_layout in *. cbn [cols rows] in *.
  apply ceil_of_quotient. lia.
Qed.

Lemma layout_rows_bounds :
  (1 <= rows L)%Z /\
  (imagesPerPage <= cols L * rows L)%Z /\
  (cols L * (rows L - 1) < imagesPerPage)%Z.
Proof.
  pose proof layout_cols as Hc. rewrite layout_rows.
  pose proof (Z.div_mod (- imagesPerPage) (cols L) ltac:(lia)) as Hdiv.
  pose proof (Z.mod_pos_bound (- imagesPerPage) (cols L) ltac:(lia)) as Hmod.
  set (q := (- imagesPerPage / cols L)%Z) in *.
  set (r := (- imagesPerPage mod cols L)%Z) in *.
  clearbody q r. repeat split; nia.
Qed.

Lemma layout_page :
  padding L == 3 /\
  ((pageWidth L == 297 /\ pageHeight L == 210) \/
   (pageWidth L == 210 /\ pageHeight L == 297)) /\
  availableWidth L == pageWidth L - 2 * padding L /\
  availableHeight L == pageHeight L - 2 * padding L.
Proof.
  unfold L, downloadPageAsPDF_layout.
  cbn [padding pageWidth pageHeight availableWidth availableHeight].
  destruct (getOrientation imagesPerPage); cbn [is_landscape].
  - split; [reflexivity |]. split; [right; split; reflexivity |]. split; reflexivity.
  - split; [reflexivity |]. split; [left; split; reflexivity |]. split; reflexivity.
Qed.

Lemma layout_cells :
  0 < cellWidth L /\ 0 < cellHeight L /\
  inject_Z (cols L) * cellWidth L == availableWidth L /\
  inject_Z (rows L) * cellHeight L == availableHeight L.
Proof.
  pose proof layout_cols as Hc. destruct layout_rows_bounds as (Hr & _ & _).
  destruct layout_page as (Hp & Hdims & Haw & Hah).
  assert (Hcq : 0 < inject_Z (cols L)) by (rewrite <- (Zlt_Qlt 0); lia).
  assert (Hrq : 0 < inject_Z (rows L)) by (rewrite <- (Zlt_Qlt 0); lia).
  assert (Hw : 0 < availableWidth L) by (destruct Hdims as [(Hpw & _) | (Hpw & _)]; lra).
  assert (Hh : 0 < availableHeight L) by (destruct Hdims as [(_ & Hph) | (_ & Hph)]; lra).
  assert (Ecw : cellWidth L = availableWidth L / inject_Z (cols L)) by reflexivity.
  assert (Ech : cellHeight L = availableHeight L / inject_Z (rows L)) by reflexivity.
  rewrite Ecw, Ech.
  split; [apply Qlt_shift_div_l; lra |].
  split; [apply Qlt_shift_div_l; lra |].
  split; field; lra.
Qed.

End Grid.

Section Cells.

Import PrintLayout.

Variable loadImage : string -> option Image.

(** The draw size the exports compute for one image fits 99% of the cell. *)
Lemma cell_fit (cw ch : Q) (img : Image) :
  0 < cw -> 0 < ch -> 0 < img_width img -> 0 < img_height img ->
  let imgAspect := img_width img / img_height img in
  let size :=
    if gtb imgAspect (cw / ch)
    then (cw * (99 # 100), cw * (99 # 100) / imgAspect)
    else (ch * (99 # 100) * imgAspect, ch * (99 # 100)) in
  0 < fst size <= cw * (99 # 100) /\ 0 < snd size <= ch * (99 # 100).
Proof.
  intros Hcw Hch HSw HSh. cbv zeta.
  set (t := mkArea 0 0 (cw * (99 # 100)) (ch * (99 # 100))).
  assert (Htw : 0 < width t) by (cbn; lra).
  assert (Hth : 0 < height t) by (cbn; lra).
  assert (Hta : width t / height t == cw / ch) by (cbn; field; lra).
  destruct (gtb (img_width img / img_height img) (cw / ch)) eqn:Hcmp; cbn [fst snd].
  - apply gtb_true in Hcmp. rewrite <- Hta in Hcmp.
    pose proof (wide_height_le t img Hth HSw HSh Hcmp) as Hle.
    pose proof (wide_height_pos t img Htw HSw HSh) as Hpos.
    cbn [width height t] in Hle, Hpos. repeat split; try lra; assumption.
  - apply gtb_false in Hcmp. rewrite <- Hta in Hcmp.
    pose proof (tall_width_le t img Hth Hcmp) as Hle.
    pose proof (tall_width_pos t img Hth HSw HSh) as Hpos.
    cbn [width height t] in Hle, Hpos. repeat split; try lra; assumption.
Qed.

Hypothesis decoded_sizes :
  forall src img, loadImage src = Some img -> 0 < img_width img /\ 0 < img_height img.

Variable L : Layout.
Hypothesis cell_width_pos : 0 < cellWidth L.
Hypothesis cell_height_pos : 0 < cellHeight L.

(** Image number [j] of the loop started at index [i] lands in cell
    [i + j]. *)
Lemma loop_places_in_cells (pageImages : list string) :
  forall (i : Z) (calls : list PdfCall),
    downloadPageAsPDF_loop loadImage L pageImages i = Some calls ->
    forall (j : nat) (p : Placement),
      nth_error (placements calls) j = Some p ->
      in_cell L (i + Z.of_nat j) p.
Proof.
  induction pageImages as [| pageImage rest IH]; intros i calls Hrun j p Hj.
  - injection Hrun as <-. destruct j; discriminate.
  - cbn [downloadPageAsPDF_loop] in Hrun.
    destruct (loadImage pageImage) as [img |] eqn:Hload; [| discriminate].
    destruct (decoded_sizes _ _ Hload) as (HSw & HSh).
    pose proof (cell_fit (cellWidth L) (cellHeight L) img
                  cell_width_pos cell_height_pos HSw HSh) as Hfit.
    cbv zeta in Hfit.
    remember (inject_Z (Z.rem i (cols L)) * cellWidth L) as col_offset eqn:Ecol.
    remember (inject_Z (Math.floor (inject_Z i / inject_Z (cols L))) * cellHeight L)
      as row_offset eqn:Erow.
    destruct (downloadPageAsPDF_loop loadImage L rest (i + 1)) as [more |] eqn:Hrest.
    + destruct (gtb (img_width img / img_height img) (cellWidth L / cellHeight L));
        cbn [fst snd] in Hfit; destruct Hfit as ((Hw0 & Hw1) & (Hh0 & Hh1));
        injection Hrun as <-;
        (destruct j as [| j];
         [ injection Hj as <-; rewrite Z.add_0_r;
           unfold in_cell; cbv zeta; rewrite <- Ecol, <- Erow;
           cbn [drawWidth drawHeight at_x at_y];
           clear Ecol Erow; repeat split; qlra
         | replace (i + Z.of_nat (S j))%Z with ((i + 1) + Z.of_nat j)%Z by lia;
           exact (IH _ _ Hrest j p Hj) ]).
    + destruct (gtb (img_width img / img_height img) (cellWidth L / cellHeight L));
        discriminate.
Qed.

End Cells.

Section PageOrder.

Context {A : Type}.

(** In a division into chunks of [n], entry [j] of chunk [k] is entry
    [k * n + j] of the concatenation. *)
Lemma chunked_nth (n : nat) (ps : list (list A)) :
  chunked n ps ->
  forall (k j : nat) (p : list A) (v : A),
    nth_error ps k = Some p -> nth_error p j = Some v ->
    nth_error (List.concat ps) (k * n + j) = Some v.
Proof.
  induction 1 as [| p0 Hlen | p0 ps0 Hlen Hne Hrest IH]; intros k j p v Hk Hj.
  - destruct k; discriminate.
  - destruct k as [| k]; [| destruct k; discriminate].
    injection Hk as <-. simpl. rewrite app_nil_r. exact Hj.
  - destruct k as [| k]; simpl.
    + injection Hk as <-. rewrite nth_error_app1; [exact Hj |].
      apply nth_error_Some. congruence.
    + simpl in Hk. rewrite nth_error_app2 by lia.
      replace (n + k * n + j - List.length p0)%nat with (k * n + j)%nat by lia.
      exact (IH k j p v Hk Hj).
Qed.

End PageOrder.

Section ExportCalls.

Import PrintLayout.

Variable loadImage : string -> option Image.
Variable L : Layout.

(** What a completed per-page loop has called. *)
Lemma loop_calls (pageImages : list string) :
  forall (i : Z) (calls : list PdfCall),
    downloadPageAsPDF_loop loadImage L pageImages i = Some calls ->
    placed_sources calls = pageImages /\
    List.length calls = List.length pageImages /\
    page_turns calls = 0%nat.
Proof.
  induction pageImages as [| pageImage rest IH]; intros i calls Hrun.
  - injection Hrun as <-. repeat split; reflexivity.
  - cbn [downloadPageAsPDF_loop] in Hrun.
    destruct (loadImage pageImage) as [img |]; [| discriminate].
    destruct (downloadPageAsPDF_loop loadImage L rest (i + 1)) as [more |] eqn:Hrest;
      [| destruct (gtb _ _); discriminate].
    destruct (IH _ _ Hrest) as (Hsrc & Hlen & Hturn).
    unfold placed_sources, placements in *.
    destruct (gtb _ _); injection Hrun as <-;
      (split; [cbn [flat_map app map src]; f_equal; exact Hsrc |]);
      (split; [cbn [List.length]; f_equal; exact Hlen | exact Hturn]).
Qed.

(** The per-page loop gives up exactly when one of its images does not
    load. *)
Lemma loop_abort (pageImages : list string) :
  forall i : Z,
    downloadPageAsPDF_loop loadImage L pageImages i = None <->
    exists src, In src pageImages /\ loadImage src = None.
Proof.
  induction pageImages as [| pageImage rest IH]; intros i.
  - split; [discriminate | intros (src & [] & _)].
  - cbn [downloadPageAsPDF_loop].
    destruct (loadImage pageImage) as [img |] eqn:Hload.
    + destruct (downloadPageAsPDF_loop loadImage L rest (i + 1)) as [more |] eqn:Hrest.
      * split; [destruct (gtb _ _); discriminate |].
        intros (src & [<- | Hin] & Hsrc); [congruence |].
        assert (Hnone : downloadPageAsPDF_loop loadImage L rest (i + 1) = None)
          by (apply IH; exists src; split; assumption).
        congruence.
      * split; [intros _ | destruct (gtb _ _); reflexivity].
        apply IH in Hrest. destruct Hrest as (src & Hin & Hsrc).
        exists src. split; [right; exact Hin | exact Hsrc].
    + split; [intros _ | reflexivity].
      exists pageImage. split; [left; reflexivity | exact Hload].
Qed.

Lemma placed_sources_app (l l' : list PdfCall) :
  placed_sources (l ++ l') = placed_sources l ++ placed_sources l'.
Proof.
  unfold placed_sources. rewrite placements_app. apply map_app.
Qed.

Lemma page_turns_app (l l' : list PdfCall) :
  page_turns (l ++ l') = (page_turns l + page_turns l')%nat.
Proof.
  unfold page_turns. rewrite filter_app. apply length_app.
Qed.

(** What a completed whole-document loop has called, started at page
    index [pageIdx]. *)
Lemma pages_calls (pages : list (list string)) :
  forall (pageIdx : Z) (calls : list PdfCall),
    (0 <= pageIdx)%Z ->
    downloadAllAsPDF_pages loadImage L pages pageIdx = Some calls ->
    placed_sources calls = List.concat pages /\
    page_turns calls
    = (if (pageIdx >? 0)%Z then List.length pages else List.length pages - 1)%nat.
Proof.
  induction pages as [| page rest IH]; intros pageIdx calls Hidx Hrun.
  - injection Hrun as <-. split; [reflexivity |]. destruct (pageIdx >? 0)%Z; reflexivity.
  - cbn [downloadAllAsPDF_pages] in Hrun.
    destruct (downloadAllAsPDF_images loadImage L page 0) as [pc |] eqn:Hpage;
      [| discriminate].
    destruct (downloadAllAsPDF_pages loadImage L rest (pageIdx + 1)) as [more |] eqn:Hrest;
      [| discriminate].
    injection Hrun as <-.
    rewrite <- loops_agree in Hpage.
    destruct (loop_calls page 0 pc Hpage) as (Hsrc & _ & Hturn).
    destruct (IH (pageIdx + 1)%Z more ltac:(lia) Hrest) as (Hsrcs & Hturns).
    destruct (Z.gtb_spec (pageIdx + 1) 0); [| lia].
    rewrite !placed_sources_app, !page_turns_app, Hsrc, Hsrcs, Hturn, Hturns.
    destruct (pageIdx >? 0)%Z; cbn; split; try reflexivity; lia.
Qed.

End ExportCalls.

(** X13.  With at least one image per page, the [alt] number shown for
    image [j] of page [k] (both counted from 0) is the 1-based position of
    that image in the sequence the component was given. *)
Theorem alt_numbers_follow_input_order
    (mergedImages : list string) (imagesPerPage : Z) (fuel : nat)
    (ps : list (list string)) (k j : nat) (page : list string) (img : string) :
  (1 <= imagesPerPage)%Z ->
  PrintLayout.pages fuel mergedImages imagesPerPage = Some ps ->
  nth_error ps k = Some page ->
  nth_error page j = Some img ->
  let number := PrintLayout.altNumber imagesPerPage (Z.of_nat k) (Z.of_nat j) in
  (1 <= number <= Z.of_nat (List.length mergedImages))%Z /\
  nth_error mergedImages (Z.to_nat (number - 1)) = Some img.
Proof.
  intros Hpos Hrun Hk Hj number.
  destruct (pages_from_chunks mergedImages imagesPerPage Hpos
              (S (List.length mergedImages)) 0 [])
    as (ps' & Hrun' & Hcat & Hchunk & _); [lia | lia |].
  simpl app in Hrun'. simpl skipn in Hcat.
  assert (ps = ps')
    by exact (pages_from_deterministic mergedImages imagesPerPage _ _ _ _ _ _ Hrun Hrun').
  subst ps'.
  pose proof (chunked_nth _ ps Hchunk k j page img Hk Hj) as Hnth.
  rewrite Hcat in Hnth.
  assert (Hidx : Z.to_nat (number - 1) = (k * Z.to_nat imagesPerPage + j)%nat)
    by (unfold number, PrintLayout.altNumber; nia).
  rewrite Hidx. split; [| exact Hnth].
  assert (Hlt : (k * Z.to_nat imagesPerPage + j < List.length mergedImages)%nat)
    by (apply nth_error_Some; congruence).
  unfold number, PrintLayout.altNumber. nia.
Qed.

(** The second image of the third page of ten images at four per page is
    image number 10. *)
Lemma alt_numbers_follow_input_order_example :
  let ten := ["a"; "b"; "c"; "d"; "e"; "f"; "g"; "h"; "i"; "j"] in
  PrintLayout.altNumber 4 2 1 = 10%Z /\
  nth_error ten 9 = Some "j".
Proof.
  intros ten.
  assert (Hpos : (1 <= 4)%Z) by (intro Hgt; discriminate Hgt).
  destruct (alt_numbers_follow_input_order ten 4 11
              [["a"; "b"; "c"; "d"]; ["e"; "f"; "g"; "h"]; ["i"; "j"]]
              2 1 ["i"; "j"] "j" Hpos eq_refl eq_refl eq_refl) as (_ & Hnth).
  split; [reflexivity | exact Hnth].
Defined.

(** X14.  For every count of at least one image per page, the grid of the
    PDF exports has 1 to 3 columns and at least one row, enough cells for
    a full page and no row that a full page leaves empty; the cells the
    images of a page are sent to (column [i % cols], row
    [floor(i / cols)]) lie in the grid and are different for different
    images; and the cells tile the page minus its padding of 3 mm. *)
Theorem grid_has_a_cell_for_every_image (imagesPerPage : Z) :
  (1 <= imagesPerPage)%Z ->
  let L := PrintLayout.downloadPageAsPDF_layout imagesPerPage in
  let c := PrintLayout.cols L in
  let r := PrintLayout.rows L in
  (1 <= c <= 3)%Z /\ (1 <= r)%Z /\
  (imagesPerPage <= c * r)%Z /\ (c * (r - 1) < imagesPerPage)%Z /\
  (forall i : Z, (0 <= i < imagesPerPage)%Z ->
     (0 <= Z.rem i c < c)%Z /\
     (0 <= Math.floor (inject_Z i / inject_Z c) < r)%Z) /\
  (forall i i' : Z, (0 <= i)%Z -> (0 <= i')%Z ->
     Z.rem i c = Z.rem i' c ->
     Math.floor (inject_Z i / inject_Z c) = Math.floor (inject_Z i' / inject_Z c) ->
     i = i') /\
  inject_Z c * PrintLayout.cellWidth L
  == PrintLayout.pageWidth L - 2 * PrintLayout.padding L /\
  inject_Z r * PrintLayout.cellHeight L
  == PrintLayout.pageHeight L - 2 * PrintLayout.padding L /\
  PrintLayout.padding L == 3.
Proof.
  intros Hpos L c r.
  pose proof (layout_cols imagesPerPage) as Hc.
  destruct (layout_rows_bounds imagesPerPage Hpos) as (Hr & Hroom & Htight).
  destruct (layout_page imagesPerPage) as (Hpad & _ & Haw & Hah).
  destruct (layout_cells imagesPerPage Hpos) as (_ & _ & Hcw & Hch).
  fold L in Hc, Hr, Hroom, Htight, Hpad, Haw, Hah, Hcw, Hch.
  fold c in Hc, Hroom, Htight, Hcw. fold r in Hr, Hroom, Htight, Hch.
  split; [exact Hc |]. split; [exact Hr |]. split; [exact Hroom |].
  split; [exact Htight |].
  split; [| split; [| split; [| split]]].
  - intros i Hi. rewrite floor_of_quotient. split.
    + apply Z.rem_bound_pos; lia.
    + split; [apply Z.div_pos; lia |]. apply Z.div_lt_upper_bound; lia.
  - intros i i' Hi Hi'. rewrite !floor_of_quotient, !Z.rem_mod_nonneg by lia.
    intros Hrem Hdiv.
    rewrite (Z.div_mod i c), (Z.div_mod i' c) by lia. congruence.
  - rewrite Hcw, Haw. reflexivity.
  - rewrite Hch, Hah. reflexivity.
  - exact Hpad.
Qed.

(** Six per page: three columns, two rows. *)
Lemma grid_has_a_cell_for_every_image_example :
  PrintLayout.cols (PrintLayout.downloadPageAsPDF_layout 6) = 3%Z /\
  PrintLayout.rows (PrintLayout.downloadPageAsPDF_layout 6) = 2%Z /\
  (6 <= PrintLayout.cols (PrintLayout.downloadPageAsPDF_layout 6)
        * PrintLayout.rows (PrintLayout.downloadPageAsPDF_layout 6))%Z.
Proof.
  assert (Hpos : (1 <= 6)%Z) by (intro Hgt; discriminate Hgt).
  destruct (grid_has_a_cell_for_every_image 6 Hpos) as (_ & _ & Hroom & _).
  split; [reflexivity |]. split; [reflexivity | exact Hroom].
Defined.

Section ExportShape.

Import PrintLayout.

Lemma placements_wrap (o : Orientation) (l : list PdfCall) (name : FileName) :
  placements (new_jsPDF o :: l ++ [save name]) = placements l.
Proof.
  change (new_jsPDF o :: l ++ [save name]) with ([new_jsPDF o] ++ l ++ [save name]).
  rewrite !placements_app. simpl. apply app_nil_r.
Qed.

(** A cell of the grid lies between the paddings of the page. *)
Lemma cell_on_page (imagesPerPage k : Z) (p : Placement) :
  (1 <= imagesPerPage)%Z -> (0 <= k < imagesPerPage)%Z ->
  in_cell (downloadPageAsPDF_layout imagesPerPage) k p ->
  on_page (downloadPageAsPDF_layout imagesPerPage) p.
Proof.
  intros Hpos Hk.
  pose proof (layout_cols imagesPerPage) as Hc.
  destruct (layout_rows_bounds imagesPerPage Hpos) as (Hr & Hroom & _).
  destruct (layout_page imagesPerPage) as (_ & _ & Haw & Hah).
  destruct (layout_cells imagesPerPage Hpos) as (Hcw0 & Hch0 & Hcw & Hch).
  set (L := downloadPageAsPDF_layout imagesPerPage) in *.
  unfold in_cell, on_page. cbv zeta. rewrite floor_of_quotient.
  assert (Hcol : (0 <= Z.rem k (cols L) /\ Z.rem k (cols L) + 1 <= cols L)%Z)
    by (pose proof (Z.rem_bound_pos k (cols L)); lia).
  assert (Hrow : (0 <= k / cols L /\ k / cols L + 1 <= rows L)%Z).
  { split; [apply Z.div_pos; lia |].
    assert (k / cols L < rows L)%Z by (apply Z.div_lt_upper_bound; lia). lia. }
  destruct Hcol as (Hcol0 & Hcol1). destruct Hrow as (Hrow0 & Hrow1).
  rewrite Zle_Qle in Hcol0, Hcol1, Hrow0, Hrow1.
  rewrite inject_Z_plus in Hcol1, Hrow1.
  change (inject_Z 1) with 1 in Hcol1, Hrow1.
  change (inject_Z 0) with 0 in Hcol0, Hrow0.
  set (col := inject_Z (Z.rem k (cols L))) in *.
  set (row := inject_Z (k / cols L)) in *.
  set (cq := inject_Z (cols L)) in *. set (rq := inject_Z (rows L)) in *.
  assert (0 <= col * cellWidth L) by (apply Qmult_le_0_compat; lra).
  assert (0 <= row * cellHeight L) by (apply Qmult_le_0_compat; lra).
  assert (0 <= (cq - 1 - col) * cellWidth L) by (apply Qmult_le_0_compat; lra).
  assert (0 <= (rq - 1 - row) * cellHeight L) by (apply Qmult_le_0_compat; lra).
  intros (_ & _ & Hx0 & Hx1 & Hy0 & Hy1).
  clearbody col row cq rq. repeat split; lra.
Qed.

End ExportShape.

(** X15.  When a page of at most [imagesPerPage] images is exported and
    every decoded image has positive width and height, image number [j] of
    the page is placed with positive size inside cell number [j] of the
    grid, and therefore at least the padding away from every edge of the
    page. *)
Theorem pdf_images_stay_in_their_cells
    (loadImage : string -> option Image) (imagesPerPage : Z)
    (pageImages : list string) (pageIndex : Z)
    (calls : list PrintLayout.PdfCall) :
  (1 <= imagesPerPage)%Z ->
  (Z.of_nat (List.length pageImages) <= imagesPerPage)%Z ->
  (forall src img, loadImage src = Some img ->
     0 < img_width img /\ 0 < img_height img) ->
  PrintLayout.downloadPageAsPDF loadImage imagesPerPage pageImages pageIndex
  = Some calls ->
  let L := PrintLayout.downloadPageAsPDF_layout imagesPerPage in
  forall (j : nat) (p : PrintLayout.Placement),
    nth_error (placements calls) j = Some p ->
    in_cell L (Z.of_nat j) p /\ on_page L p.
Proof.
  intros Hpos Hlen Hsizes Hrun L j p Hj.
  unfold PrintLayout.downloadPageAsPDF in Hrun. fold L in Hrun.
  destruct (PrintLayout.downloadPageAsPDF_loop loadImage L pageImages 0)
    as [body |] eqn:Hloop; [| discriminate].
  injection Hrun as <-. rewrite placements_wrap in Hj.
  destruct (layout_cells imagesPerPage Hpos) as (Hcw0 & Hch0 & _).
  pose proof (loop_places_in_cells loadImage Hsizes L Hcw0 Hch0 pageImages 0 body
                Hloop j p Hj) as Hcell.
  rewrite Z.add_0_l in Hcell. split; [exact Hcell |].
  destruct (loop_calls loadImage L pageImages 0 body Hloop) as (Hsrc & _ & _).
  assert (Hjlt : (j < List.length pageImages)%nat).
  { rewrite <- Hsrc. unfold placed_sources. rewrite length_map.
    apply nth_error_Some. congruence. }
  apply (cell_on_page imagesPerPage (Z.of_nat j) p Hpos); [lia | exact Hcell].
Qed.

(** Two 200 x 100 images on a page for four. *)
Lemma pdf_images_stay_in_their_cells_example :
  let loadImage := fun _ : string => Some (mkImage 200 100) in
  exists calls,
    PrintLayout.downloadPageAsPDF loadImage 4 ["a"; "b"] 0 = Some calls /\
    forall (j : nat) (p : PrintLayout.Placement),
      nth_error (placements calls) j = Some p ->
      on_page (PrintLayout.downloadPageAsPDF_layout 4) p.
Proof.
  intros loadImage. eexists. split; [reflexivity |].
  assert (Hpos : (1 <= 4)%Z) by (intro Hgt; discriminate Hgt).
  assert (Hlen : (Z.of_nat (List.length ["a"; "b"]) <= 4)%Z)
    by (intro Hgt; discriminate Hgt).
  assert (Hsizes : forall src img, loadImage src = Some img ->
                                   0 < img_width img /\ 0 < img_height img)
    by (intros src img [= <-]; split; reflexivity).
  intros j p Hj.
  exact (proj2 (pdf_images_stay_in_their_cells loadImage 4 ["a"; "b"] 0 _
                  Hpos Hlen Hsizes eq_refl j p Hj)).
Defined.

(** X16.  The single-page export is abandoned (alert, nothing saved)
    exactly when one of the page's images fails to load.  Otherwise it
    creates a document in the orientation of [getOrientation], adds the
    images of the page one by one in their order and saves under the
    1-based page number. *)
Theorem page_export_calls
    (loadImage : string -> option Image) (imagesPerPage : Z)
    (pageImages : list string) (pageIndex : Z) :
  (PrintLayout.downloadPageAsPDF loadImage imagesPerPage pageImages pageIndex = None
   <-> exists src, In src pageImages /\ loadImage src = None) /\
  (forall calls,
     PrintLayout.downloadPageAsPDF loadImage imagesPerPage pageImages pageIndex
     = Some calls ->
     exists images,
       calls = PrintLayout.new_jsPDF (PrintLayout.getOrientation imagesPerPage)
               :: images
               ++ [PrintLayout.save (PrintLayout.qris_merged_page (pageIndex + 1))] /\
       placed_sources images = pageImages /\
       List.length images = List.length pageImages).
Proof.
  unfold PrintLayout.downloadPageAsPDF.
  pose proof (loop_abort loadImage (PrintLayout.downloadPageAsPDF_layout imagesPerPage)
                pageImages 0) as Habort.
  destruct (PrintLayout.downloadPageAsPDF_loop loadImage _ pageImages 0)
    as [body |] eqn:Hloop.
  - split.
    + split; [discriminate |]. intros Hfail. apply Habort in Hfail. discriminate.
    + intros calls [= <-]. exists body.
      destruct (loop_calls loadImage _ pageImages 0 body Hloop) as (Hsrc & Hlen & _).
      split; [reflexivity |]. split; assumption.
  - split.
    + split; [intros _; apply Habort; reflexivity | reflexivity].
    + discriminate.
Qed.

(** The calls of the whole-document loop started at page index [pageIdx]:
    each page's calls are those of the per-page loop, and every page that
    is not the document's first is preceded by one [addPage]. *)
Lemma pages_page_by_page (loadImage : string -> option Image)
    (L : PrintLayout.Layout) (pages : list (list string)) :
  forall (pageIdx : Z) (calls : list PrintLayout.PdfCall),
    (0 <= pageIdx)%Z ->
    PrintLayout.downloadAllAsPDF_pages loadImage L pages pageIdx = Some calls ->
    exists bodies,
      Forall2 (fun page body =>
                 PrintLayout.downloadPageAsPDF_loop loadImage L page 0 = Some body)
              pages bodies /\
      calls = if (pageIdx >? 0)%Z
              then flat_map (fun body =>
                               PrintLayout.addPage (PrintLayout.orientation L) :: body)
                            bodies
              else page_by_page (PrintLayout.orientation L) bodies.
Proof.
  induction pages as [| page rest IH]; intros pageIdx calls Hidx Hrun.
  - injection Hrun as <-. exists []. split; [constructor |].
    destruct (pageIdx >? 0)%Z; reflexivity.
  - cbn [PrintLayout.downloadAllAsPDF_pages] in Hrun.
    destruct (PrintLayout.downloadAllAsPDF_images loadImage L page 0) as [pc |] eqn:Hpage;
      [| discriminate].
    destruct (PrintLayout.downloadAllAsPDF_pages loadImage L rest (pageIdx + 1))
      as [more |] eqn:Hrest; [| discriminate].
    injection Hrun as <-.
    rewrite <- loops_agree in Hpage.
    destruct (IH (pageIdx + 1)%Z more ltac:(lia) Hrest) as (bodies & Hbodies & Hmore).
    exists (pc :: bodies). split; [constructor; assumption |].
    destruct (Z.gtb_spec (pageIdx + 1) 0); [| lia].
    rewrite Hmore.
    destruct (pageIdx >? 0)%Z; cbn [flat_map page_by_page app]; reflexivity.
Qed.

(** X17.  The whole-document export is abandoned exactly when some image
    of some page fails to load.  Otherwise it creates one document in the
    orientation of [getOrientation], makes for every page the calls the
    per-page loop makes for it (one [addImage] per image, in order), the
    first page's calls directly and every further page's calls after one
    [addPage], and saves the result as the whole-document file. *)
Theorem document_export_calls
    (loadImage : string -> option Image) (imagesPerPage : Z)
    (pages : list (list string)) :
  (PrintLayout.downloadAllAsPDF loadImage imagesPerPage pages = None
   <-> exists page src, In page pages /\ In src page /\ loadImage src = None) /\
  (forall calls,
     PrintLayout.downloadAllAsPDF loadImage imagesPerPage pages = Some calls ->
     exists bodies,
       Forall2 (fun page body =>
                  PrintLayout.downloadPageAsPDF_loop loadImage
                    (PrintLayout.downloadAllAsPDF_layout imagesPerPage) page 0
                  = Some body /\
                  placed_sources body = page /\
                  List.length body = List.length page /\
                  page_turns body = 0%nat)
               pages bodies /\
       calls = PrintLayout.new_jsPDF (PrintLayout.getOrientation imagesPerPage)
               :: page_by_page (PrintLayout.getOrientation imagesPerPage) bodies
               ++ [PrintLayout.save PrintLayout.qris_merged_all] /\
       placed_sources
         (page_by_page (PrintLayout.getOrientation imagesPerPage) bodies)
       = List.concat pages /\
       page_turns (page_by_page (PrintLayout.getOrientation imagesPerPage) bodies)
       = (List.length pages - 1)%nat).
Proof.
  unfold PrintLayout.downloadAllAsPDF.
  set (L := PrintLayout.downloadAllAsPDF_layout imagesPerPage).
  pose proof (pages_abort loadImage L pages 0) as Habort.
  destruct (PrintLayout.downloadAllAsPDF_pages loadImage L pages 0)
    as [body |] eqn:Hpages.
  - split.
    + split; [discriminate |].
      intros (page & src & Hpage & Hsrc & Hload).
      assert (Hnone : Some body = None); [| discriminate].
      apply Habort. exists page. split; [exact Hpage |].
      rewrite <- loops_agree. apply loop_abort. exists src. split; assumption.
    + intros calls [= <-].
      destruct (pages_page_by_page loadImage L pages 0 body ltac:(lia) Hpages)
        as (bodies & Hbodies & Hbody).
      cbn in Hbody.
      destruct (pages_calls loadImage L pages 0 body ltac:(lia) Hpages) as (Hsrc & Hturn).
      exists bodies. split; [| split; [| split]].
      * clear Hbody Hsrc Hturn Hpages Habort.
        induction Hbodies as [| page one rest more Hone Hrest IH]; constructor.
        -- split; [exact Hone |]. exact (loop_calls loadImage L page 0 one Hone).
        -- exact IH.
      * rewrite Hbody. reflexivity.
      * rewrite <- Hbody. exact Hsrc.
      * rewrite <- Hbody. exact Hturn.
  - split.
    + split; [intros _ | reflexivity].
      destruct (proj1 Habort eq_refl) as (page & Hpage & Hfail).
      rewrite <- loops_agree in Hfail. apply loop_abort in Hfail.
      destruct Hfail as (src & Hsrc & Hload).
      exists page, src. repeat split; assumption.
    + discriminate.
Qed.

(** With a count of zero or less the loop index never gets past the first
    image. *)
Lemma pages_from_stuck (mergedImages : list string) (imagesPerPage : Z) (fuel : nat) :
  (imagesPerPage <= 0)%Z -> mergedImages <> [] ->
  forall (i : Z) (acc : list (list string)),
    (i <= 0)%Z ->
    PrintLayout.pages_from fuel mergedImages imagesPerPage i acc = None.
Proof.
  intros Hipp Hne.
  assert (Hlen : (0 < Z.of_nat (List.length mergedImages))%Z)
    by (destruct mergedImages; [contradiction | simpl; lia]).
  induction fuel as [| fuel IH]; intros i acc Hi; simpl; [reflexivity |].
  destruct (Z.ltb_spec i (Z.of_nat (List.length mergedImages))); [| lia].
  apply IH. lia.
Qed.

(** X18.  With [imagesPerPage] zero or negative, the partition into pages
    is produced only for the empty sequence: for any non-empty sequence
    the loop never terminates. *)
Theorem pages_needs_positive_count
    (mergedImages : list string) (imagesPerPage : Z) :
  (imagesPerPage <= 0)%Z ->
  ((exists fuel ps, PrintLayout.pages fuel mergedImages imagesPerPage = Some ps)
   <-> mergedImages = []).
Proof.
  intros Hipp. split.
  - intros (fuel & ps & Hrun). destruct mergedImages as [| img rest]; [reflexivity |].
    unfold PrintLayout.pages in Hrun.
    rewrite (pages_from_stuck (img :: rest) imagesPerPage fuel Hipp) in Hrun;
      [discriminate | discriminate | lia].
  - intros ->. exists 1%nat, []. reflexivity.
Qed.

(** Two images with a count of -2. *)
Lemma pages_needs_positive_count_example :
  ~ exists fuel ps, PrintLayout.pages fuel ["a"; "b"] (-2) = Some ps.
Proof.
  assert (Hipp : (-2 <= 0)%Z) by (intro Hgt; discriminate Hgt).
  intros Hrun.
  apply (pages_needs_positive_count ["a"; "b"] (-2) Hipp) in Hrun. discriminate.
Defined.

(** ** Settings: saving, reloading and the configuration file *)

Section Settings.

Import SettingsModal.

Lemma string_eqb_refl_false (a b : string) : a <> b -> String.eqb a b = false.
Proof.
  intros Hne. destruct (String.eqb_spec a b); [contradiction | reflexivity].
Qed.

Lemma no_frame_some (f : string) : f <> "" -> no_frame (Some f) = false.
Proof.
  intros Hne. unfold no_frame. now apply string_eqb_refl_false.
Qed.

Lemma loadSavedSettings_found (parse : string -> option JSON) (ls : Storage)
    (savedSettings : option JSON) (text : string) (parsed : JSON) :
  getItem SETTINGS_KEY ls = Some text -> text <> "" -> parse text = Some parsed ->
  App.loadSavedSettings parse ls savedSettings
  = if App.hasSettings (Some parsed) then Some parsed else savedSettings.
Proof.
  intros Hget Hfull Hparse. unfold App.loadSavedSettings, App.hasSettings.
  rewrite Hget, (string_eqb_refl_false _ _ Hfull), Hparse.
  destruct (get parsed "frameImage"); reflexivity.
Qed.

Lemma loadSavedSettings_not_found (parse : string -> option JSON) (ls : Storage)
    (savedSettings : option JSON) :
  getItem SETTINGS_KEY ls = None \/
  (exists text, getItem SETTINGS_KEY ls = Some text /\ (text = "" \/ parse text = None)) ->
  App.loadSavedSettings parse ls savedSettings = savedSettings.
Proof.
  unfold App.loadSavedSettings.
  intros [Hget | (text & Hget & [Hempty | Hparse])]; rewrite Hget; [reflexivity | |].
  - rewrite Hempty. reflexivity.
  - destruct (String.eqb text ""); [reflexivity |]. rewrite Hparse. reflexivity.
Qed.

End Settings.

(** X19.  Saving and reloading: when the dialog holds a frame and a
    rectangle, [handleSave] reports them through [onSave], shows the
    success message, writes them under the settings key and leaves every
    other key of the storage alone; the application's mount effect then
    finds that entry and adopts it, with the same frame and the same four
    numbers.  [JSON.stringify] and [JSON.parse] are the platform's; they
    are taken to give back the saved document from a non-empty text. *)
Theorem saved_settings_survive_reload
    (stringify : SettingsModal.JSON -> string)
    (parse : string -> option SettingsModal.JSON)
    (st : SettingsModal.State) (ls : SettingsModal.Storage)
    (f : string) (a : AreaConfig) :
  SettingsModal.frameImage st = Some f -> f <> "" ->
  SettingsModal.areaConfig st = Some a ->
  let doc := SettingsModal.settingsJSON (SettingsModal.mkSaved f a) in
  stringify doc <> "" ->
  parse (stringify doc) = Some doc ->
  let saved := SettingsModal.handleSave stringify st ls in
  let st' := fst (fst saved) in
  let ls' := snd (fst saved) in
  snd saved = Some (SettingsModal.mkSaved f a) /\
  SettingsModal.saveSuccess st' = true /\
  SettingsModal.frameImage st' = Some f /\
  SettingsModal.areaConfig st' = Some a /\
  (forall key, key <> SettingsModal.SETTINGS_KEY ->
     SettingsModal.getItem key ls' = SettingsModal.getItem key ls) /\
  App.loadSavedSettings parse ls' None = Some doc /\
  App.hasSettings (Some doc) = true /\
  SettingsModal.get doc "frameImage"
  = SettingsModal.value (SettingsModal.JString f) /\
  exists config,
    SettingsModal.get doc "areaConfig" = SettingsModal.value config /\
    SettingsModal.asAreaConfig config = a.
Proof.
  intros Hframe Hne Harea doc Htext Hcodec saved st' ls'.
  assert (Hsaved : saved
                   = (SettingsModal.setSaveSuccess true st,
                      SettingsModal.setItem SettingsModal.SETTINGS_KEY (stringify doc) ls,
                      Some (SettingsModal.mkSaved f a))).
  { unfold saved, SettingsModal.handleSave. rewrite Hframe, Harea.
    rewrite (no_frame_some f Hne). reflexivity. }
  unfold st', ls'. rewrite Hsaved. cbn [fst snd].
  split; [reflexivity |]. split; [reflexivity |].
  split; [exact Hframe |]. split; [exact Harea |].
  split; [| split; [| split; [| split]]].
  - intros key Hkey. unfold SettingsModal.getItem, SettingsModal.setItem.
    rewrite (string_eqb_refl_false _ _ Hkey). reflexivity.
  - unfold App.loadSavedSettings, SettingsModal.getItem, SettingsModal.setItem.
    rewrite String.eqb_refl. rewrite (string_eqb_refl_false _ _ Htext), Hcodec.
    unfold doc. cbn. rewrite (string_eqb_refl_false _ _ Hne). reflexivity.
  - unfold doc. cbn. rewrite (string_eqb_refl_false _ _ Hne). reflexivity.
  - reflexivity.
  - exists (SettingsModal.toJSON a). split; [reflexivity |]. destruct a; reflexivity.
Qed.

(** A frame and a rectangle saved and found again, with a codec that
    knows this one document. *)
Lemma saved_settings_survive_reload_example :
  let a := mkArea (123 # 10) (7 # 3) (401 # 8) 33 in
  let doc := SettingsModal.settingsJSON (SettingsModal.mkSaved "frame.png" a) in
  let stringify := fun _ : SettingsModal.JSON => "saved" in
  let parse := fun text : string =>
                 if String.eqb text "saved" then Some doc else None in
  let st := SettingsModal.mkState (Some "frame.png") (Some a) false in
  let saved := SettingsModal.handleSave stringify st (fun _ => None) in
  App.loadSavedSettings parse (snd (fst saved)) None = Some doc.
Proof.
  intros a doc stringify parse st saved.
  assert (Hne : "frame.png" <> "") by discriminate.
  assert (Htext : stringify doc <> "") by discriminate.
  exact (proj1 (proj2 (proj2 (proj2 (proj2 (proj2
           (saved_settings_survive_reload stringify parse st (fun _ => None)
              "frame.png" a eq_refl Hne eq_refl Htext eq_refl))))))).
Defined.

(** X20.  The mount effect changes [savedSettings] only to a stored
    document that parses and has a truthy [frameImage] and a truthy
    [areaConfig]; a missing entry, an empty text, unparsable text or a
    document lacking either field leaves [savedSettings] as it was. *)
Theorem mount_adopts_only_complete_settings
    (parse : string -> option SettingsModal.JSON)
    (ls : SettingsModal.Storage) (savedSettings : option SettingsModal.JSON) :
  let after := App.loadSavedSettings parse ls savedSettings in
  (after = savedSettings \/
   exists text parsed,
     SettingsModal.getItem SettingsModal.SETTINGS_KEY ls = Some text /\
     text <> "" /\ parse text = Some parsed /\
     after = Some parsed /\ App.hasSettings after = true) /\
  (SettingsModal.getItem SettingsModal.SETTINGS_KEY ls = None ->
   after = savedSettings) /\
  (forall text,
     SettingsModal.getItem SettingsModal.SETTINGS_KEY ls = Some text ->
     parse text = None \/ text = "" -> after = savedSettings) /\
  (forall text parsed,
     SettingsModal.getItem SettingsModal.SETTINGS_KEY ls = Some text ->
     parse text = Some parsed -> App.hasSettings (Some parsed) = false ->
     after = savedSettings).
Proof.
  cbv zeta.
  destruct (SettingsModal.getItem SettingsModal.SETTINGS_KEY ls) as [text |] eqn:Hget.
  2: { rewrite (loadSavedSettings_not_found parse ls savedSettings (or_introl Hget)).
       split; [left; reflexivity |]. split; [reflexivity |].
       split; [intros text' [=] | intros text' parsed [=]]. }
  destruct (String.eqb_spec text "") as [Hempty | Hfull].
  { rewrite (loadSavedSettings_not_found parse ls savedSettings);
      [| right; exists text; split; [exact Hget | left; exact Hempty]].
    split; [left; reflexivity |]. split; [discriminate |].
    split; intros; reflexivity. }
  destruct (parse text) as [parsed |] eqn:Hparse.
  2: { rewrite (loadSavedSettings_not_found parse ls savedSettings);
         [| right; exists text; split; [exact Hget | right; exact Hparse]].
       split; [left; reflexivity |]. split; [discriminate |].
       split; intros; reflexivity. }
  rewrite (loadSavedSettings_found parse ls savedSettings text parsed Hget Hfull Hparse).
  destruct (App.hasSettings (Some parsed)) eqn:Hhas.
  - split.
    + right. exists text, parsed. repeat split; try assumption; reflexivity.
    + split; [discriminate |]. split.
      * intros text' [= <-] [Hnone | Hempty]; [congruence | contradiction].
      * intros text' parsed' [= <-] Hp Hno. congruence.
  - split; [left; reflexivity |]. split; [discriminate |].
    split; intros; reflexivity.
Qed.

(** X21.  Importing a configuration file never changes the frame.  When
    it raises an alert (unreadable text or missing numbers) the whole
    dialog state is unchanged; when it does not, the dialog holds a
    rectangle and the success message is cleared. *)
Theorem import_leaves_the_rest_alone
    (Text : Type) (parse : Text -> option SettingsModal.JSON)
    (text : Text) (st : SettingsModal.State) :
  let outcome := SettingsModal.handleImportConfig parse text st in
  SettingsModal.frameImage (fst outcome) = SettingsModal.frameImage st /\
  (snd outcome <> None -> fst outcome = st) /\
  (parse text = None -> outcome = (st, Some SettingsModal.Gagal_membaca_file)) /\
  (snd outcome = None ->
     SettingsModal.saveSuccess (fst outcome) = false /\
     exists a, SettingsModal.areaConfig (fst outcome) = Some a).
Proof.
  cbv zeta. unfold SettingsModal.handleImportConfig.
  destruct (parse text) as [data |].
  2: { repeat split; try reflexivity; discriminate. }
  destruct (SettingsModal.areaConfig_or_data data) as [config |].
  2: { repeat split; try reflexivity; discriminate. }
  destruct (SettingsModal.get config "x");
    try (repeat split; try reflexivity; discriminate);
    destruct (_ && _ && _ && _); cbn [fst snd];
    (split; [reflexivity |]);
    (split; [intros Halert; try reflexivity; contradiction |]);
    (split; [discriminate |]);
    intros Hok; try discriminate; split; [reflexivity | eexists; reflexivity].
Qed.

(** X22.  Uploading another frame or removing the frame discards the
    rectangle; until a new one is marked, saving does nothing (no call of
    [onSave], storage untouched), exporting writes no file and the save
    button is disabled. *)
Theorem changing_the_frame_discards_the_rectangle
    (stringify : SettingsModal.JSON -> string)
    (st : SettingsModal.State) (ls : SettingsModal.Storage)
    (result : option string) (now : string) :
  let uploaded := SettingsModal.handleFrameUpload result st in
  let removed := SettingsModal.handleRemoveFrame st in
  SettingsModal.frameImage uploaded = result /\
  SettingsModal.frameImage removed = None /\
  SettingsModal.areaConfig uploaded = None /\
  SettingsModal.areaConfig removed = None /\
  SettingsModal.handleSave stringify uploaded ls = (uploaded, ls, None) /\
  SettingsModal.handleSave stringify removed ls = (removed, ls, None) /\
  SettingsModal.handleExportConfig stringify now uploaded = None /\
  SettingsModal.handleExportConfig stringify now removed = None /\
  SettingsModal.canSave uploaded = false /\
  SettingsModal.canSave removed = false.
Proof.
  cbv zeta.
  split; [reflexivity |]. split; [reflexivity |].
  split; [reflexivity |]. split; [reflexivity |].
  split; [destruct result; reflexivity |]. split; [reflexivity |].
  split; [reflexivity |]. split; [reflexivity |].
  split; [| reflexivity].
  unfold SettingsModal.canSave. cbn. apply andb_false_r.
Qed.



(** ** Removing a source image *)

(** X24.  Removing by id leaves exactly the images with another id, in
    their order.  If no image has the id, the list is unchanged and no URL
    is revoked; otherwise the only URL revoked is the preview of the first
    image with that id, even when later images share the id and are
    removed with it. *)
Theorem removeQrisImage_keeps_the_others
    (id : string) (prev : list ImageMerger.QRISImage) :
  let next := fst (App.removeQrisImage id prev) in
  let revoked := snd (App.removeQrisImage id prev) in
  (forall img, In img next <-> In img prev /\ ImageMerger.id img <> id) /\
  ((forall img, In img prev -> ImageMerger.id img <> id) ->
     next = prev /\ revoked = []) /\
  (forall before img after,
     prev = before ++ img :: after ->
     ImageMerger.id img = id ->
     (forall b, In b before -> ImageMerger.id b <> id) ->
     revoked = [ImageMerger.preview img] /\
     next = before
            ++ filter (fun i => negb (String.eqb (ImageMerger.id i) id)) after).
Proof.
  cbv zeta. unfold App.removeQrisImage. cbn [fst snd].
  assert (Hkeep : forall l,
            (forall b, In b l -> ImageMerger.id b <> id) ->
            filter (fun i => negb (String.eqb (ImageMerger.id i) id)) l = l /\
            find (fun i => String.eqb (ImageMerger.id i) id) l = None).
  { induction l as [| b l IH]; intros Hall; [split; reflexivity |].
    simpl. rewrite (string_eqb_refl_false _ _ (Hall b (or_introl eq_refl))). simpl.
    destruct IH as (Hf & Hn); [intros b' Hb'; apply Hall; right; exact Hb' |].
    rewrite Hf, Hn. split; reflexivity. }
  split; [| split].
  - intros img. rewrite filter_In, negb_true_iff.
    destruct (String.eqb_spec (ImageMerger.id img) id); split;
      intros (Hin & Hid); split; try assumption; congruence.
  - intros Hall. destruct (Hkeep prev Hall) as (Hf & Hn). rewrite Hf, Hn.
    split; reflexivity.
  - intros before img after -> Hid Hbefore.
    destruct (Hkeep before Hbefore) as (Hf & Hn).
    rewrite filter_app, Hf. simpl. rewrite Hid, String.eqb_refl. simpl.
    split; [| reflexivity].
    clear Hf. induction before as [| b before IH]; simpl.
    + rewrite Hid, String.eqb_refl. reflexivity.
    + rewrite (string_eqb_refl_false _ _ (Hbefore b (or_introl eq_refl))).
      apply IH.
      * intros b' Hb'. apply Hbefore. right. exact Hb'.
      * simpl in Hn.
        rewrite (string_eqb_refl_false _ _ (Hbefore b (or_introl eq_refl))) in Hn.
        exact Hn.
Qed.
